(** * poper: the movie-suggestion orchestrator of [src/App.jsx]

    A shallow embedding of the business logic of the [App] component:
    [handleMovieSuggestion], [getAiSuggestions], [searchMoviesWithOMDb]
    and [filterMoviesByYear], together with the JavaScript built-ins they
    rest on ([String.prototype.trim], [split], [parseInt], [Set]).

    Conventions of the embedding.
    - A JavaScript string is a [string]; each [ascii] stands for one code
      unit in the range U+0000..U+00FF.  Code units above U+00FF are outside
      the model.
    - A [Number] that is only ever produced by [parseInt] and compared with
      the literals 1980..2025 is a [Z]; [NaN] is [None].  Rounding to a
      double is monotone and fixes every integer below 2^53, so it does not
      change the outcome of any of these comparisons.
    - The two remote services are oracles over an abstract world state; every
      request that is sent is appended to a log.
    - A statement denotes a function from the state to a completion
      (normal, [return], [throw], [continue]) and a new state. *)

From Stdlib Require Import ZArith List String Ascii Bool Lia.
From stdpp Require Import gmap strings.
Import ListNotations.
Local Open Scope string_scope.
Local Open Scope Z_scope.
Local Open Scope list_scope.
Local Set Warnings "-clear-no-such-hyp".

(** ** JavaScript strings *)

Module Js.

(** [WhiteSpace] and [LineTerminator] code units below U+0100: TAB, LF, VT,
    FF, CR, SP and NBSP.  These are the code units removed by [trim] and
    skipped by [parseInt]. *)
Definition isWhiteSpace (c : ascii) : bool :=
  match N_of_ascii c with
  | 9%N | 10%N | 11%N | 12%N | 13%N | 32%N | 160%N => true
  | _ => false
  end.

Fixpoint allWhiteSpace (s : string) : bool :=
  match s with
  | EmptyString => true
  | String c r => isWhiteSpace c && allWhiteSpace r
  end.

(** [s.trimStart()] *)
Fixpoint trimStart (s : string) : string :=
  match s with
  | EmptyString => EmptyString
  | String c r => if isWhiteSpace c then trimStart r else s
  end.

(** [s.trimEnd()] *)
Fixpoint trimEnd (s : string) : string :=
  match s with
  | EmptyString => EmptyString
  | String c r =>
      match trimEnd r with
      | EmptyString => if isWhiteSpace c then EmptyString else String c EmptyString
      | r' => String c r'
      end
  end.

(** [s.trim()] *)
Definition trim (s : string) : string := trimEnd (trimStart s).

(** The first, respectively the last, code unit is white space. *)
Definition startsWithWhiteSpace (s : string) : bool :=
  match s with
  | EmptyString => false
  | String c _ => isWhiteSpace c
  end.

Fixpoint endsWithWhiteSpace (s : string) : bool :=
  match s with
  | EmptyString => false
  | String c EmptyString => isWhiteSpace c
  | String _ r => endsWithWhiteSpace r
  end.

(** Truthiness of a string value: only the empty string is falsy. *)
Definition truthy (s : string) : bool :=
  match s with
  | EmptyString => false
  | String _ _ => true
  end.

(** [s.split(sep)] for a separator of one code unit.  The result is never
    empty: [''.split(',')] is [['']]. *)
Fixpoint split (sep : ascii) (s : string) : list string :=
  match s with
  | EmptyString => [EmptyString]
  | String c r =>
      if Ascii.eqb c sep then EmptyString :: split sep r
      else match split sep r with
           | [] => [String c EmptyString]
           | p :: ps => String c p :: ps
           end
  end.

(** [pieces.join(sep)] *)
Fixpoint join (sep : ascii) (pieces : list string) : string :=
  match pieces with
  | [] => EmptyString
  | [p] => p
  | p :: ps => p +:+ String sep (join sep ps)
  end.

Fixpoint contains (c : ascii) (s : string) : bool :=
  match s with
  | EmptyString => false
  | String d r => Ascii.eqb d c || contains c r
  end.

(** Value of a code unit as a digit of the given radix (10 or 16). *)
Definition digitValue (radix : Z) (c : ascii) : option Z :=
  let n := Z.of_N (N_of_ascii c) in
  let v :=
    if (48 <=? n) && (n <=? 57) then Some (n - 48)
    else if (97 <=? n) && (n <=? 122) then Some (n - 87)
    else if (65 <=? n) && (n <=? 90) then Some (n - 55)
    else None in
  match v with
  | Some d => if d <? radix then Some d else None
  | None => None
  end.

(** The longest prefix of radix digits, read as a number; [acc] is the value
    of the digits consumed so far and [seen] tells whether there was one. *)
Fixpoint parseDigits (radix : Z) (s : string) (seen : bool) (acc : Z) : option Z :=
  match s with
  | EmptyString => if seen then Some acc else None
  | String c r =>
      match digitValue radix c with
      | Some d => parseDigits radix r true (acc * radix + d)
      | None => if seen then Some acc else None
      end
  end.

(** [parseInt(s)] with the radix left undefined: leading white space is
    skipped, one sign is accepted, a [0x] or [0X] prefix selects radix 16,
    and the longest prefix of digits is read.  [None] is [NaN]. *)
Definition parseInt (s : string) : option Z :=
  let s1 := trimStart s in
  let '(sign, s2) :=
    match s1 with
    | String "-" r => (-1, r)
    | String "+" r => (1, r)
    | _ => (1, s1)
    end in
  let '(radix, s3) :=
    match s2 with
    | String "0" (String "x" r) => (16, r)
    | String "0" (String "X" r) => (16, r)
    | _ => (10, s2)
    end in
  match parseDigits radix s3 false 0 with
  | Some n => Some (sign * n)
  | None => None
  end.

End Js.

(** ** Records of the metadata service

    A detail reply and an entry of a search reply are both JavaScript
    objects read through the same field names, so one record covers both.
    OMDb delivers each of these fields as a JSON string. *)

Record Movie := mkMovie {
  Response : string;
  imdbID : string;
  Title : string;
  Year : string;
  Poster : string
}.

(** ** The year filter *)

(** The [switch] of [filterMoviesByYear]: the cases are tried in source
    order with strict equality on the bucket text. *)
Definition yearSwitch (yearFilter : string) (movieYear : Z) : bool :=
  if String.eqb yearFilter "2025" then movieYear =? 2025
  else if String.eqb yearFilter "2024" then movieYear =? 2024
  else if String.eqb yearFilter "2023" then movieYear =? 2023
  else if String.eqb yearFilter "2022" then movieYear =? 2022
  else if String.eqb yearFilter "2021" then movieYear =? 2021
  else if String.eqb yearFilter "2020" then movieYear =? 2020
  else if String.eqb yearFilter "2010s" then (2010 <=? movieYear) && (movieYear <=? 2019)
  else if String.eqb yearFilter "2000s" then (2000 <=? movieYear) && (movieYear <=? 2009)
  else if String.eqb yearFilter "1990s" then (1990 <=? movieYear) && (movieYear <=? 1999)
  else if String.eqb yearFilter "1980s" then (1980 <=? movieYear) && (movieYear <=? 1989)
  else if String.eqb yearFilter "classic" then movieYear <? 1980
  else true.

(** The callback handed to [movies.filter]. *)
Definition yearKeeps (yearFilter : string) (movie : Movie) : bool :=
  match Js.parseInt (Year movie) with
  | None => false
  | Some movieYear => yearSwitch yearFilter movieYear
  end.

Definition filterMoviesByYear (movies : list Movie) (yearFilter : string) : list Movie :=
  if String.eqb yearFilter "all" then movies
  else List.filter (yearKeeps yearFilter) movies.

(** The reading of a bucket that the design record gives: the identity, an
    exact year, a decade given by its first year, or everything before
    1980. *)
Inductive Bucket :=
| BucketAll
| BucketExact (year : Z)
| BucketDecade (first : Z)
| BucketClassic.

Definition bucketHolds (b : Bucket) (y : Z) : bool :=
  match b with
  | BucketAll => true
  | BucketExact year => y =? year
  | BucketDecade first => (first <=? y) && (y <=? first + 9)
  | BucketClassic => y <? 1980
  end.

(** The values of the year selector of the form, with their reading. *)
Definition recognizedBuckets : list (string * Bucket) :=
  [ ("all", BucketAll);
    ("2025", BucketExact 2025); ("2024", BucketExact 2024);
    ("2023", BucketExact 2023); ("2022", BucketExact 2022);
    ("2021", BucketExact 2021); ("2020", BucketExact 2020);
    ("2010s", BucketDecade 2010); ("2000s", BucketDecade 2000);
    ("1990s", BucketDecade 1990); ("1980s", BucketDecade 1980);
    ("classic", BucketClassic) ].

Definition recognized (yearFilter : string) : Prop :=
  ∃ b, (yearFilter, b) ∈ recognizedBuckets.

(** What the design record asks of the filter for a bucket [b]. *)
Definition bucketFilter (b : Bucket) (movies : list Movie) : list Movie :=
  match b with
  | BucketAll => movies
  | _ => List.filter
           (fun m => match Js.parseInt (Year m) with
                     | Some y => bucketHolds b y
                     | None => false
                     end) movies
  end.

(** The test applied before the [switch]: [!isNaN(parseInt(movie.Year))]. *)
Definition yearParses (movie : Movie) : bool :=
  match Js.parseInt (Year movie) with
  | Some _ => true
  | None => false
  end.

(** ** Statements

    A statement transforms a state and completes normally with a value, or
    abruptly: [return], [throw] (the thrown error is represented by its
    [message]) or [continue]. *)

Inductive Completion (R A : Type) :=
| Normal (a : A)
| Return (r : R)
| Throw (e : string)
| Continue.
Arguments Normal {R A} a.
Arguments Return {R A} r.
Arguments Throw {R A} e.
Arguments Continue {R A}.

Definition Stmt (S R A : Type) : Type := S -> Completion R A * S.

Definition ret {S R A} (a : A) : Stmt S R A := fun s => (Normal a, s).

Definition bind {S R A B} (m : Stmt S R A) (k : A -> Stmt S R B) : Stmt S R B :=
  fun s =>
    match m s with
    | (Normal a, s') => k a s'
    | (Return r, s') => (Return r, s')
    | (Throw e, s') => (Throw e, s')
    | (Continue, s') => (Continue, s')
    end.

Declare Scope stmt_scope.
Delimit Scope stmt_scope with stmt.
Notation "x <- m ;; k" := (bind m (fun x => k))
  (at level 100, m at next level, right associativity) : stmt_scope.
Notation "m ;; k" := (bind m (fun _ => k))
  (at level 100, right associativity) : stmt_scope.
Local Open Scope stmt_scope.

Definition return_ {S R A} (r : R) : Stmt S R A := fun s => (Return r, s).
Definition throw {S R A} (e : string) : Stmt S R A := fun s => (Throw e, s).
Definition continue_ {S R A} : Stmt S R A := fun s => (Continue, s).

Definition get {S R} : Stmt S R S := fun s => (Normal s, s).
Definition modify {S R} (f : S -> S) : Stmt S R unit := fun s => (Normal tt, f s).

(** [if (c) stmt] without an [else]. *)
Definition when {S R} (c : bool) (stmt : Stmt S R unit) : Stmt S R unit :=
  if c then stmt else ret tt.

(** [try { body } catch (error) { handler error }] *)
Definition try_catch {S R A} (body : Stmt S R A) (handler : string -> Stmt S R A)
  : Stmt S R A :=
  fun s =>
    match body s with
    | (Throw e, s') => handler e s'
    | other => other
    end.

(** [stmt finally { final }], where [stmt] is a [try] with its [catch]: the
    [finally] block runs whatever the completion of [stmt] is, and an abrupt
    completion of its own replaces that of [stmt]. *)
Definition finally {S R A} (stmt : Stmt S R A) (final : Stmt S R unit) : Stmt S R A :=
  fun s =>
    match stmt s with
    | (c, s') =>
        match final s' with
        | (Normal _, s'') => (c, s'')
        | (Return r, s'') => (Return r, s'')
        | (Throw e, s'') => (Throw e, s'')
        | (Continue, s'') => (Continue, s'')
        end
    end.

(** [for (const x of xs) { body x }]; [xs.forEach(x => { body x })] behaves
    the same when [body] neither returns nor continues. *)
Fixpoint for_of {S R X} (xs : list X) (body : X -> Stmt S R unit) : Stmt S R unit :=
  match xs with
  | [] => ret tt
  | x :: rest =>
      fun s =>
        match body x s with
        | (Normal _, s') => for_of rest body s'
        | (Continue, s') => for_of rest body s'
        | (Return r, s') => (Return r, s')
        | (Throw e, s') => (Throw e, s')
        end
  end.

(** A statement on the component state, run inside a function body that
    has local variables of its own. *)
Definition global {L S R A} (m : Stmt S R A) : Stmt (L * S) R A :=
  fun ls =>
    match m (snd ls) with
    | (c, s') => (c, (fst ls, s'))
    end.

Definition locals {L S R} : Stmt (L * S) R L := fun ls => (Normal (fst ls), ls).
Definition setLocals {L S R} (f : L -> L) : Stmt (L * S) R unit :=
  fun ls => (Normal tt, (f (fst ls), snd ls)).

(** A call of a function whose body ends in a [return] or a [throw]: such a
    body has no normal completion, which its type records.  A [continue]
    outside every loop cannot be written in JavaScript. *)
Definition call {L S R R'} (init : L) (body : Stmt (L * S) R Empty_set) : Stmt S R' R :=
  fun s =>
    match body (init, s) with
    | (Normal a, _) => match a with end
    | (Return r, (_, s')) => (Normal r, s')
    | (Throw e, (_, s')) => (Throw e, s')
    | (Continue, (_, s')) => (Throw "SyntaxError: Illegal continue statement", s')
    end.

(** A call of a function whose body may run to its end: the call then
    evaluates to [undefined], here [None]. *)
Definition call_open {L S R R'} (init : L) (body : Stmt (L * S) R unit)
  : Stmt S R' (option R) :=
  fun s =>
    match body (init, s) with
    | (Normal _, (_, s')) => (Normal None, s')
    | (Return r, (_, s')) => (Normal (Some r), s')
    | (Throw e, (_, s')) => (Throw e, s')
    | (Continue, (_, s')) => (Throw "SyntaxError: Illegal continue statement", s')
    end.

(** ** The remote services *)

(** The requests the component sends, each with the one datum of its URL
    or body that varies. *)
Inductive Request :=
| GenerateContent (prompt : string)
| TitleLookup (title : string)
| KeywordSearch (query : string)
| KeywordSearchAnyType (query : string)
| DetailLookup (id : string).

(** [response.json()] resolves to the decoded body or rejects.  A body on
    which the first property access throws, such as [null], counts as a
    rejection: in each of the four places the error is thrown under the
    same handler, with nothing done in between. *)
Inductive Json (A : Type) :=
| JsonRejected (message : string)
| JsonData (data : A).
Arguments JsonRejected {A} message.
Arguments JsonData {A} data.

Record HttpResponse (A : Type) := mkResponse {
  ok : bool;
  body : Json A
}.
Arguments mkResponse {A} ok body.
Arguments ok {A} h.
Arguments body {A} h.

(** [fetch(url)] resolves to a response or rejects. *)
Inductive Fetched (A : Type) :=
| FetchRejected (message : string)
| FetchResolved (response : HttpResponse A).
Arguments FetchRejected {A} message.
Arguments FetchResolved {A} response.

(** The body of a keyword-search reply. *)
Record SearchReply := mkSearchReply {
  searchResponse : string;           (* the field [Response] *)
  Search : option (list Movie)       (* absent when nothing was found *)
}.

(** The services as seen from the component.  The body of a generation
    reply is represented by the value of
    [data.candidates?.[0]?.content?.parts?.[0]?.text], [None] when the
    chain yields [undefined]. *)
Record Services (W : Type) := mkServices {
  generate : string -> W -> Fetched (option string) * W;
  lookupTitle : string -> W -> Fetched Movie * W;
  search : string -> W -> Fetched SearchReply * W;
  searchAnyType : string -> W -> Fetched SearchReply * W;
  lookupId : string -> W -> Fetched Movie * W
}.
Arguments mkServices {W}.
Arguments generate {W} s prompt w.
Arguments lookupTitle {W} s title w.
Arguments search {W} s query w.
Arguments searchAnyType {W} s query w.
Arguments lookupId {W} s id w.

(** ** The component *)

Record Filters := mkFilters {
  language : string;
  genre : string;
  year : string
}.

(** The state of the component together with the world it talks to. *)
Record State (W : Type) := mkState {
  userInput : string;
  filters : Filters;
  movies : list Movie;
  isLoading : bool;
  error : option string;
  world : W;
  sent : list Request
}.
Arguments mkState {W}.
Arguments userInput {W} s.
Arguments filters {W} s.
Arguments movies {W} s.
Arguments isLoading {W} s.
Arguments error {W} s.
Arguments world {W} s.
Arguments sent {W} s.

(** The local variables of [searchMoviesWithOMDb]. *)
Record Locals := mkLocals {
  seenMovies : gset string;
  results : list Movie;
  validMovies : list Movie
}.

Section Component.

Context {W : Type}.

(** The services, and the two credentials read from the environment at
    start-up ([None] when the variable is not defined). *)
Variable services : Services W.
Variables GEMINI_API_KEY OMDB_API_KEY : option string.

(** [!key] *)
Definition missing (key : option string) : bool :=
  match key with
  | None => true
  | Some k => negb (Js.truthy k)
  end.

(** *** State setters and the network *)

Definition setMovies {R} (ms : list Movie) : Stmt (State W) R unit :=
  modify (fun s => mkState (userInput s) (filters s) ms (isLoading s) (error s)
                           (world s) (sent s)).

Definition setIsLoading {R} (b : bool) : Stmt (State W) R unit :=
  modify (fun s => mkState (userInput s) (filters s) (movies s) b (error s)
                           (world s) (sent s)).

Definition setError {R} (e : option string) : Stmt (State W) R unit :=
  modify (fun s => mkState (userInput s) (filters s) (movies s) (isLoading s) e
                           (world s) (sent s)).

(** The state once a request has been sent and the world has answered. *)
Definition afterFetch (s : State W) (req : Request) (w' : W) : State W :=
  mkState (userInput s) (filters s) (movies s) (isLoading s) (error s)
          w' (sent s ++ [req]).

(** [await fetch(...)]: the request is logged, the service answers and the
    world moves on; a rejected promise is thrown at the [await]. *)
Definition fetch {R A} (req : Request) (serve : W -> Fetched A * W)
  : Stmt (State W) R (HttpResponse A) :=
  fun s =>
    match serve (world s) with
    | (FetchRejected message, w') => (Throw message, afterFetch s req w')
    | (FetchResolved response, w') => (Normal response, afterFetch s req w')
    end.

(** [await response.json()] *)
Definition json {S R A} (response : HttpResponse A) : Stmt S R A :=
  match body response with
  | JsonRejected message => throw message
  | JsonData data => ret data
  end.

(** *** [getAiSuggestions] *)

Definition newline : string := String (ascii_of_nat 10) EmptyString.
Definition dquote : string := String (ascii_of_nat 34) EmptyString.

(** The template literal of the prompt. *)
Definition prompt (userInput : string) (filters : Filters) : string :=
  newline +:+
  "            Based on this request: " +:+ dquote +:+ userInput +:+ dquote +:+
    ", suggest 5-8 well-known movie titles that:" +:+ newline +:+
  "            - Match the specified language: " +:+ language filters +:+ newline +:+
  "            - Match the specified genre: " +:+ genre filters +:+ newline +:+
  "            - Match the specified year/period: " +:+ year filters +:+ newline +:+
  "            - Are popular and widely available" +:+ newline +:+
  "            - Have had theatrical or major streaming releases" +:+ newline +:+
  "            " +:+ newline +:+
  "            IMPORTANT: Return ONLY a comma-separated list of exact movie titles, no explanations." +:+ newline +:+
  "            Example: The Dark Knight, Inception, The Matrix, Pulp Fiction" +:+ newline +:+
  "        ".

(** [text.split(',').map(t => t.trim()).filter(Boolean)] *)
Definition candidateTitles (text : string) : list string :=
  List.filter Js.truthy (List.map Js.trim (Js.split "," text)).

Definition getAiSuggestions_body (userInput : string) (filters : Filters)
  : Stmt (unit * State W) (list string) Empty_set :=
  when (missing GEMINI_API_KEY)
    (throw "Gemini API key is missing. Please check your environment variables.") ;;
  response <- global (fetch (GenerateContent (prompt userInput filters))
                            (generate services (prompt userInput filters))) ;;
  when (negb (ok response))
    (throw "Failed to get suggestions from the AI service.") ;;
  text <- json response ;;
  match text with
  | None => throw "The AI returned an empty response. Please try again."
  | Some text =>
      if negb (Js.truthy text)
      then throw "The AI returned an empty response. Please try again."
      else return_ (candidateTitles text)
  end.

Definition getAiSuggestions {R} (userInput : string) (filters : Filters)
  : Stmt (State W) R (list string) :=
  call tt (getAiSuggestions_body userInput filters).

(** *** [searchMoviesWithOMDb] *)

Definition seenMovies_add {S R} (id : string) : Stmt (Locals * S) R unit :=
  setLocals (fun l => mkLocals ({[ id ]} ∪ seenMovies l) (results l) (validMovies l)).

Definition results_push {S R} (m : Movie) : Stmt (Locals * S) R unit :=
  setLocals (fun l => mkLocals (seenMovies l) (results l ++ [m]) (validMovies l)).

Definition validMovies_push {S R} (m : Movie) : Stmt (Locals * S) R unit :=
  setLocals (fun l => mkLocals (seenMovies l) (results l) (validMovies l ++ [m])).

Definition validMovies_set {S R} (ms : list Movie) : Stmt (Locals * S) R unit :=
  setLocals (fun l => mkLocals (seenMovies l) (results l) ms).

(** [seenMovies.has(id)] *)
Definition has (seen : gset string) (id : string) : bool := bool_decide (id ∈ seen).

(** [movie.Poster !== 'N/A'] *)
Definition hasPoster (movie : Movie) : bool := negb (String.eqb (Poster movie) "N/A").

(** One turn of the loop over the suggested titles. *)
Definition titleStep (title : string) : Stmt (Locals * State W) (list Movie) unit :=
  try_catch
    (response <- global (fetch (TitleLookup title) (lookupTitle services title)) ;;
     when (negb (ok response)) continue_ ;;
     data <- json response ;;
     l <- locals ;;
     when (String.eqb (Response data) "True" && negb (has (seenMovies l) (imdbID data)))
       (seenMovies_add (imdbID data) ;;
        results_push data))
    (fun error => continue_).

(** One turn of the loop over the hits of the fallback search. *)
Definition detailStep (movie : Movie) : Stmt (Locals * State W) (list Movie) unit :=
  l <- locals ;;
  when (has (seenMovies l) (imdbID movie)) continue_ ;;
  try_catch
    (detailResponse <- global (fetch (DetailLookup (imdbID movie))
                                     (lookupId services (imdbID movie))) ;;
     when (ok detailResponse)
       (detailData <- json detailResponse ;;
        when (String.eqb (Response detailData) "True")
          (seenMovies_add (imdbID detailData) ;;
           results_push detailData)))
    (fun error => ret tt).

(** The fallback search, entered when the title loop kept nothing. *)
Definition fallbackSearch (userInput : string) : Stmt (Locals * State W) (list Movie) unit :=
  fallbackResponse <- global (fetch (KeywordSearch userInput)
                                    (search services userInput)) ;;
  when (ok fallbackResponse)
    (fallbackData <- json fallbackResponse ;;
     when (String.eqb (searchResponse fallbackData) "True")
       match Search fallbackData with
       | Some hits => for_of hits detailStep
       | None => ret tt
       end).

(** The [try] statement with its [catch]: lines 107 to 164 of the source. *)
Definition searchMoviesWithOMDb_try (titles : list string) (userInput : string)
    (filters : Filters) : Stmt (Locals * State W) (list Movie) unit :=
  try_catch
    (when (missing OMDB_API_KEY)
       (throw "OMDB API key is missing. Please check your environment variables.") ;;
     for_of titles titleStep ;;
     l <- locals ;;
     when (Nat.eqb (length (results l)) 0) (fallbackSearch userInput) ;;
     l <- locals ;;
     return_ (filterMoviesByYear (List.filter hasPoster (results l)) (year filters)))
    (fun error => throw "Failed to search for movies. Please try again later.").

(** The statements that follow the [try] statement: lines 165 to 185. *)
Definition searchMoviesWithOMDb_rest (userInput : string) (filters : Filters)
  : Stmt (Locals * State W) (list Movie) Empty_set :=
  validMovies_set [] ;;
  l <- locals ;;
  for_of (results l)
    (fun movie =>
       l <- locals ;;
       when (String.eqb (Response movie) "True" && hasPoster movie
             && negb (has (seenMovies l) (imdbID movie)))
         (seenMovies_add (imdbID movie) ;;
          validMovies_push movie)) ;;
  l <- locals ;;
  when (Nat.eqb (length (validMovies l)) 0)
    (fallbackRes <- global (fetch (KeywordSearchAnyType userInput)
                                  (searchAnyType services userInput)) ;;
     fallbackData <- json fallbackRes ;;
     when (String.eqb (searchResponse fallbackData) "True")
       match Search fallbackData with
       | Some hits => validMovies_set (List.filter hasPoster hits)
       | None => throw "Cannot read properties of undefined (reading 'filter')"
       end) ;;
  l <- locals ;;
  return_ (filterMoviesByYear (validMovies l) (year filters)).

Definition noLocals : Locals := mkLocals ∅ [] [].

Definition searchMoviesWithOMDb {R} (titles : list string) (userInput : string)
    (filters : Filters) : Stmt (State W) R (list Movie) :=
  call noLocals
    (searchMoviesWithOMDb_try titles userInput filters ;;
     searchMoviesWithOMDb_rest userInput filters).

(** The same function with the statements after the [try] statement
    deleted: a body that runs to its end makes the call evaluate to
    [undefined]. *)
Definition searchMoviesWithOMDb_trimmed {R} (titles : list string) (userInput : string)
    (filters : Filters) : Stmt (State W) R (option (list Movie)) :=
  call_open noLocals (searchMoviesWithOMDb_try titles userInput filters).

(** *** [handleMovieSuggestion] *)

(** [err.message || 'An unknown error occurred. Please try again.'] *)
Definition messageOf (err : string) : string :=
  if Js.truthy err then err else "An unknown error occurred. Please try again.".

(** The block of the [try] statement of the handler. *)
Definition suggestionProcess_try (userInput : string) (filters : Filters)
  : Stmt (State W) unit unit :=
  suggestedTitles <- getAiSuggestions userInput filters ;;
  fetchedMovies <- searchMoviesWithOMDb suggestedTitles userInput filters ;;
  if Nat.ltb 0 (length fetchedMovies)
  then setMovies fetchedMovies
  else setError (Some "Couldn't find any movies matching your request. Please try a different description.").

(** The [try] statement of the handler, with its [catch] and [finally]. *)
Definition suggestionProcess (userInput : string) (filters : Filters)
  : Stmt (State W) unit unit :=
  finally
    (try_catch
       (suggestionProcess_try userInput filters)
       (fun err => setError (Some (messageOf err))))
    (setIsLoading false).

Definition handleMovieSuggestion_body : Stmt (State W) unit unit :=
  s <- get ;;
  when (negb (Js.truthy (Js.trim (userInput s))))
    (setError (Some "Please describe your movie mood or scenario.") ;;
     return_ tt) ;;
  setIsLoading true ;;
  setError None ;;
  setMovies [] ;;
  suggestionProcess (userInput s) (filters s).

(** Submitting the form: the state in which the handler leaves the
    component. *)
Definition handleMovieSuggestion (s : State W) : State W :=
  snd (handleMovieSuggestion_body s).

End Component.

(** ** Readings used in the statements *)

(** [t] is [p] with the white space at its two ends removed. *)
Inductive Trimmed : string → string → Prop :=
| Trimmed_intro (l t r : string) :
    Js.allWhiteSpace l = true →
    Js.allWhiteSpace r = true →
    Js.startsWithWhiteSpace t = false →
    Js.endsWithWhiteSpace t = false →
    Trimmed (l +:+ t +:+ r) t.

(** [titles] is what the design record asks of the extraction: the text
    is cut at its commas, each piece is trimmed, and the empty pieces are
    left out; nothing else is removed and the order is kept. *)
Definition Extraction (text : string) (titles : list string) : Prop :=
  ∃ pieces trimmed,
    Js.join "," pieces = text ∧
    Forall (λ p, Js.contains "," p = false) pieces ∧
    Forall2 Trimmed pieces trimmed ∧
    titles = List.filter (λ t, negb (String.eqb t "")) trimmed.

(** What a reply is worth to the loops: the decoded body of a resolved
    fetch with a success status. *)
Definition resolved {A} (reply : Fetched A) : option A :=
  match reply with
  | FetchRejected _ => None
  | FetchResolved response =>
      if ok response
      then match body response with
           | JsonData data => Some data
           | JsonRejected _ => None
           end
      else None
  end.

(** The locals once [record] has been added to [seenMovies] and pushed to
    [results]. *)
Definition kept (l : Locals) (record : Movie) : Locals :=
  mkLocals ({[ imdbID record ]} ∪ seenMovies l) (results l ++ [record]) (validMovies l).

(** The value returned at the end of the [try] block. *)
Definition returned (filters : Filters) (l : Locals) : list Movie :=
  filterMoviesByYear (List.filter hasPoster (results l)) (year filters).

Section Readings.

Context {W : Type} (services : Services W).

(** The state in which the handler enters its [try] statement: the
    loading flag is set, the error and the previous results are cleared. *)
Definition cleared (s : State W) : State W :=
  mkState (userInput s) (filters s) [] true None (world s) (sent s).

(** The state in which the handler leaves its [catch] and [finally] blocks
    after the error [err] was thrown in state [s]. *)
Definition failed (s : State W) (err : string) : State W :=
  mkState (userInput s) (filters s) (movies s) false (Some (messageOf err))
          (world s) (sent s).

(** Two states that differ at most in the world and in the log. *)
Definition sameView (s s' : State W) : Prop :=
  userInput s' = userInput s ∧ filters s' = filters s ∧ movies s' = movies s ∧
  isLoading s' = isLoading s ∧ error s' = error s.

(** One turn of the title loop, as a function on the locals and the
    state: the lookup is sent, and its record is kept when it is resolved,
    found and not yet seen. *)
Definition titleNext (ls : Locals * State W) (title : string) : Locals * State W :=
  let '(l, s) := ls in
  let '(reply, w') := lookupTitle services title (world s) in
  (match resolved reply with
   | Some data =>
       if String.eqb (Response data) "True" && negb (has (seenMovies l) (imdbID data))
       then kept l data else l
   | None => l
   end,
   afterFetch s (TitleLookup title) w').

(** A detail reply that makes the fallback loop keep a record. *)
Definition resolvable (reply : Fetched Movie) : option Movie :=
  match resolved reply with
  | Some data => if String.eqb (Response data) "True" then Some data else None
  | None => None
  end.

(** The loop over the hits of the keyword search as the code runs it
    (lines 140 to 154), as a relation: a hit whose id is in the seen set
    is passed over without a request; for any other hit the details are
    fetched by its id, and when they resolve the fetched record is pushed
    and its own id is added to the seen set.  The id of the fetched record
    is not tested against the seen set, which is where this loop differs
    from the title loop (line 122).  The indices are the hits, the seen
    set and the world before, the detail lookups made, the records pushed,
    and the seen set and the world after. *)
Inductive FallbackRun :
  list Movie → gset string → W → list Request → list Movie → gset string → W → Prop :=
| FallbackRun_done seen w :
    FallbackRun [] seen w [] [] seen w
| FallbackRun_seen hit hits seen w reqs recs seen' w' :
    imdbID hit ∈ seen →
    FallbackRun hits seen w reqs recs seen' w' →
    FallbackRun (hit :: hits) seen w reqs recs seen' w'
| FallbackRun_kept hit hits seen w reply w1 record reqs recs seen' w' :
    imdbID hit ∉ seen →
    lookupId services (imdbID hit) w = (reply, w1) →
    resolvable reply = Some record →
    FallbackRun hits ({[ imdbID record ]} ∪ seen) w1 reqs recs seen' w' →
    FallbackRun (hit :: hits) seen w
                (DetailLookup (imdbID hit) :: reqs) (record :: recs) seen' w'
| FallbackRun_dropped hit hits seen w reply w1 reqs recs seen' w' :
    imdbID hit ∉ seen →
    lookupId services (imdbID hit) w = (reply, w1) →
    resolvable reply = None →
    FallbackRun hits seen w1 reqs recs seen' w' →
    FallbackRun (hit :: hits) seen w
                (DetailLookup (imdbID hit) :: reqs) recs seen' w'.

(** The locals and the state after the loop over the suggested titles. *)
Definition titleLoop (titles : list string) (s : State W) : Locals * State W :=
  fold_left titleNext titles (noLocals, s).

(** The hits of a search reply that make the fallback loop run. *)
Definition hitsOf (reply : Fetched SearchReply) : option (list Movie) :=
  match resolved reply with
  | Some data => if String.eqb (searchResponse data) "True" then Search data else None
  | None => None
  end.

(** The error, if any, with which the keyword search itself fails: the
    fetch is rejected, or the body of a successful reply does not decode. *)
Definition searchFailure (reply : Fetched SearchReply) : option string :=
  match reply with
  | FetchRejected message => Some message
  | FetchResolved response =>
      if ok response
      then match body response with
           | JsonRejected message => Some message
           | JsonData _ => None
           end
      else None
  end.

(** The requests sent after the first [n] of the log. *)
Definition sentSince (n : nat) (s : State W) : list Request := drop n (sent s).

(** The metadata service answers a lookup by id with the record of that
    id. *)
Definition EchoesIds : Prop :=
  ∀ id w reply w' record,
    lookupId services id w = (reply, w') →
    resolvable reply = Some record →
    imdbID record = id.

End Readings.

(** [m] leaves every state related by [rel] to the one it started from. *)
Definition Keeps {S R A} (rel : S → S → Prop) (m : Stmt S R A) : Prop :=
  ∀ s, rel s (snd (m s)).

(** The relation on the states of a function body that has locals. *)
Definition onGlobal {L S} (rel : S → S → Prop) (ls ls' : L * S) : Prop :=
  rel (snd ls) (snd ls').

(** What the loops maintain: the seen set holds the ids of the kept
    records, and no id is kept twice. *)
Definition Deduplicated (l : Locals) : Prop :=
  seenMovies l = list_to_set (imdbID <$> results l) ∧ NoDup (imdbID <$> results l).

(** The message of the error thrown by the [catch] block of
    [searchMoviesWithOMDb]. *)
Definition searchError : string :=
  "Failed to search for movies. Please try again later.".

(** A keyword search ([s=]) of either form, with or without [type=movie]. *)
Definition isKeywordSearch (req : Request) : bool :=
  match req with
  | KeywordSearch _ | KeywordSearchAnyType _ => true
  | GenerateContent _ | TitleLookup _ | DetailLookup _ => false
  end.

(** [c] with its value injected into the values that may be [undefined]. *)
Definition defined {R A} (c : Completion R A) : Completion R (option A) :=
  match c with
  | Normal a => Normal (Some a)
  | Return r => Return r
  | Throw e => Throw e
  | Continue => Continue
  end.

(** ** Worlds used in the examples *)

Definition undatedMovie : Movie :=
  mkMovie "True" "tt0000001" "An Undated Film" "N/A" "https://example.org/p.jpg".

Definition up : Movie :=
  mkMovie "True" "tt1049413" "Up" "2009" "https://example.org/up.jpg".
Definition toyStory3 : Movie :=
  mkMovie "True" "tt0435761" "Toy Story 3" "2010" "https://example.org/ts3.jpg".
Definition intouchables : Movie :=
  mkMovie "True" "tt1675434" "The Intouchables" "2011" "https://example.org/int.jpg".
Definition lostReel : Movie :=
  mkMovie "True" "tt0000002" "Lost Reel" "1925" "N/A".

Definition records : list Movie := [up; toyStory3; intouchables; lostReel].

(** The body [{"Response":"False","Error":"Movie not found!"}]. *)
Definition notFound : Movie := mkMovie "False" "" "" "" "".

Definition answer {A} (data : A) : Fetched A :=
  FetchResolved (mkResponse true (JsonData data)).

Definition lookup (p : Movie → bool) : Fetched Movie :=
  match List.find p records with
  | Some m => answer m
  | None => answer notFound
  end.

(** A generation service that always suggests the same three titles and a
    metadata service that answers from [records]; the world counts the
    requests served. *)
Definition catalogue : Services nat :=
  mkServices
    (λ _ n, (answer (Some "Up, Toy Story 3, The Intouchables"), S n))
    (λ title n, (lookup (λ m, String.eqb (Title m) title), S n))
    (λ _ n, (answer (mkSearchReply "True" (Some records)), S n))
    (λ _ n, (answer (mkSearchReply "True" (Some records)), S n))
    (λ id n, (lookup (λ m, String.eqb (imdbID m) id), S n)).

(** A world in which every request is rejected. *)
Definition offline : Services unit :=
  mkServices
    (λ _ w, (FetchRejected "Failed to fetch", w))
    (λ _ w, (FetchRejected "Failed to fetch", w))
    (λ _ w, (FetchRejected "Failed to fetch", w))
    (λ _ w, (FetchRejected "Failed to fetch", w))
    (λ _ w, (FetchRejected "Failed to fetch", w)).

(** A world in which the generation service answers with a failure
    status. *)
Definition overloaded : Services unit :=
  mkServices
    (λ _ w, (FetchResolved (mkResponse false (JsonRejected "Unexpected token <")), w))
    (lookupTitle offline) (search offline) (searchAnyType offline) (lookupId offline).

Definition metropolis : Movie :=
  mkMovie "True" "tt0017136" "Metropolis" "1927" "https://example.org/m.jpg".

(** A metadata service in which a second id of a film has been merged into
    its first one: the keyword search still lists both ids, and a lookup
    by either id is answered with the record of the first.  No title is
    found by an exact lookup. *)
Definition merged : Services unit :=
  mkServices
    (generate offline)
    (λ _ w, (answer notFound, w))
    (λ _ w, (answer (mkSearchReply "True"
                       (Some [mkMovie "" "tt0017136" "Metropolis" "1927" "N/A";
                              mkMovie "" "tt9999999" "Metropolis" "1927" "N/A"])), w))
    (searchAnyType offline)
    (λ id w, (if String.eqb id "tt0017136" || String.eqb id "tt9999999"
              then answer metropolis else answer notFound, w)).

(** The second listing of the film in the search reply of [merged]. *)
Definition secondListing : Movie :=
  mkMovie "" "tt9999999" "Metropolis" "1927" "N/A".

(** The same replies on the path of the title loop: every exact lookup by
    title is answered with the record of the film. *)
Definition retitled : Services unit :=
  mkServices
    (generate offline)
    (λ _ w, (answer metropolis, w))
    (search offline) (searchAnyType offline) (lookupId offline).

Definition anyYear : Filters := mkFilters "all" "all" "all".

(** The component before the form is submitted with [text] and [filters],
    while it still shows [shown]. *)
Definition submitting {W} (text : string) (filters : Filters) (shown : list Movie)
    (w : W) : State W :=
  mkState text filters shown false None w [].

(** ** The filter selectors and the check on mount *)

(** [s.startsWith(p)], with what follows the prefix. *)
Fixpoint stripPrefix (p s : string) : option string :=
  match p, s with
  | EmptyString, _ => Some s
  | String a p', String b s' => if Ascii.eqb a b then stripPrefix p' s' else None
  | String _ _, EmptyString => None
  end.

(** [s.replace(pattern, replacement)] for a pattern that is a string and a
    replacement without [$]: the first occurrence is replaced. *)
Fixpoint replaceFirst (pattern replacement s : string) : string :=
  match stripPrefix pattern s with
  | Some rest => replacement +:+ rest
  | None =>
      match s with
      | EmptyString => EmptyString
      | String c r => String c (replaceFirst pattern replacement r)
      end
  end.

(** [{ ...prev, [key]: value }], as seen through the three properties
    that the component reads; a property under any other key is read
    nowhere. *)
Definition withProperty (prev : Filters) (key value : string) : Filters :=
  if String.eqb key "language" then mkFilters value (genre prev) (year prev)
  else if String.eqb key "genre" then mkFilters (language prev) value (year prev)
  else if String.eqb key "year" then mkFilters (language prev) (genre prev) value
  else prev.

(** [handleFilterChange], for the event of a selector with the given [id]
    and [value]. *)
Definition handleFilterChange {W} (id value : string) (s : State W) : State W :=
  mkState (userInput s)
          (withProperty (filters s) (replaceFirst "Filter" "" id) value)
          (movies s) (isLoading s) (error s) (world s) (sent s).



(** ** Readings used in the further statements *)

(** Three of the messages that the handler can show. *)
Definition geminiKeyError : string :=
  "Gemini API key is missing. Please check your environment variables.".

Definition emptyReplyError : string :=
  "The AI returned an empty response. Please try again.".

Definition noMatchError : string :=
  "Couldn't find any movies matching your request. Please try a different description.".

(** The requests that [searchMoviesWithOMDb] may send. *)
Definition isMetadataLookup (req : Request) : bool :=
  match req with
  | TitleLookup _ | KeywordSearch _ | DetailLookup _ => true
  | GenerateContent _ | KeywordSearchAnyType _ => false
  end.

(** The values of the year selector other than "all". *)
Definition yearBuckets : list string :=
  ["2025"; "2024"; "2023"; "2022"; "2021"; "2020";
   "2010s"; "2000s"; "1990s"; "1980s"; "classic"].

(** A title as the title loop expects it: not empty, without a comma, and
    without white space at either end. *)
Definition wellFormedTitle (t : string) : Prop :=
  t ≠ "" ∧ Js.contains "," t = false ∧
  Js.startsWithWhiteSpace t = false ∧ Js.endsWithWhiteSpace t = false.

(** Every code unit is a comma or white space. *)
Fixpoint onlySeparators (s : string) : bool :=
  match s with
  | EmptyString => true
  | String c r => (Ascii.eqb c "," || Js.isWhiteSpace c) && onlySeparators r
  end.

(** * Properties *)

(** ** The year filter *)

Section YearFilter.

Implicit Types (movies : list Movie) (yearFilter : string) (b : Bucket).

Lemma filter_twice {A} (p : A → bool) (l : list A) :
  List.filter p (List.filter p l) = List.filter p l.
Proof.
  induction l as [|x l IH]; simpl; [reflexivity|].
  destruct (p x) eqn:Hp; simpl; rewrite ?Hp, IH; reflexivity.
Qed.

(** C2.  For a value [yearFilter] of the year selector, read as the bucket
    [b], the filter keeps exactly, and in their order, the records whose
    year parses to an integer for which [b] holds: equality for an exact
    bucket, the inclusive range of ten years for a decade, [< 1980] for
    "classic"; it is the identity for "all"; a record whose year does not
    parse is dropped. *)
Theorem filterMoviesByYear_recognized movies yearFilter b :
  (yearFilter, b) ∈ recognizedBuckets →
  filterMoviesByYear movies yearFilter = bucketFilter b movies.
Proof.
  unfold recognizedBuckets. intros Hin.
  repeat (apply elem_of_cons in Hin as [Hin | Hin];
          [ injection Hin as -> ->; try reflexivity;
            apply List.filter_ext; intros m; unfold yearKeeps;
            destruct (Js.parseInt (Year m)); reflexivity | ]).
  inversion Hin.
Qed.

(** C8.  Filtering twice with one bucket is filtering once. *)
Theorem filterMoviesByYear_idempotent movies yearFilter :
  filterMoviesByYear (filterMoviesByYear movies yearFilter) yearFilter
  = filterMoviesByYear movies yearFilter.
Proof.
  unfold filterMoviesByYear.
  destruct (String.eqb yearFilter "all"); [reflexivity | apply filter_twice].
Qed.

Lemma recognized_cases yearFilter :
  recognized yearFilter ↔
  yearFilter ∈ ["all"; "2025"; "2024"; "2023"; "2022"; "2021"; "2020";
                "2010s"; "2000s"; "1990s"; "1980s"; "classic"].
Proof.
  unfold recognized, recognizedBuckets. split.
  - intros [b Hin].
    repeat (apply elem_of_cons in Hin as [Hin | Hin];
            [ injection Hin as -> _; set_solver | ]).
    inversion Hin.
  - intros Hin.
    repeat (apply elem_of_cons in Hin as [-> | Hin];
            [ eexists; repeat constructor | ]).
    inversion Hin.
Qed.

(** C5, as the code has it.  For a bucket outside the selector's values the
    filter keeps, in their order, exactly the records whose year parses to
    an integer; each kept record is passed through unchanged. *)
Theorem filterMoviesByYear_unrecognized movies yearFilter :
  ¬ recognized yearFilter →
  filterMoviesByYear movies yearFilter = List.filter yearParses movies.
Proof.
  intros Hnot.
  assert (Hne : ∀ s, s ∈ ["all"; "2025"; "2024"; "2023"; "2022"; "2021"; "2020";
                          "2010s"; "2000s"; "1990s"; "1980s"; "classic"] →
                     String.eqb yearFilter s = false).
  { intros s Hs. apply String.eqb_neq. intros ->.
    apply Hnot, recognized_cases, Hs. }
  unfold filterMoviesByYear. rewrite Hne by set_solver.
  apply List.filter_ext. intros m. unfold yearKeeps, yearParses, yearSwitch.
  destruct (Js.parseInt (Year m)); [|reflexivity].
  rewrite !Hne by set_solver. reflexivity.
Qed.

End YearFilter.

(** C5, as stated, fails: "1970s" is not a value of the selector, yet a
    record whose year is "N/A" is dropped. *)
Lemma filterMoviesByYear_unrecognized_drops :
  ¬ recognized "1970s" ∧
  filterMoviesByYear [undatedMovie] "1970s" = [] ∧
  filterMoviesByYear [undatedMovie] "1970s" ≠ [undatedMovie].
Proof.
  split; [| split; [reflexivity | discriminate]].
  rewrite recognized_cases. intros Hin.
  repeat (apply elem_of_cons in Hin as [Hin | Hin]; [discriminate Hin |]).
  inversion Hin.
Qed.

Lemma filterMoviesByYear_recognized_witness :
  ("2010s", BucketDecade 2010) ∈ recognizedBuckets ∧
  filterMoviesByYear
    [mkMovie "True" "tt1" "A" "2014" "p"; mkMovie "True" "tt2" "B" "1999" "p";
     undatedMovie] "2010s"
  = bucketFilter (BucketDecade 2010)
    [mkMovie "True" "tt1" "A" "2014" "p"; mkMovie "True" "tt2" "B" "1999" "p";
     undatedMovie].
Proof.
  assert (Hin : ("2010s", BucketDecade 2010) ∈ recognizedBuckets)
    by (unfold recognizedBuckets; repeat constructor).
  split; [exact Hin | apply (filterMoviesByYear_recognized _ _ _ Hin)].
Defined.

Lemma filterMoviesByYear_unrecognized_witness :
  ¬ recognized "1970s" ∧
  filterMoviesByYear [mkMovie "True" "tt1" "A" "1975" "p"; undatedMovie] "1970s"
  = List.filter yearParses [mkMovie "True" "tt1" "A" "1975" "p"; undatedMovie].
Proof.
  assert (Hnot : ¬ recognized "1970s").
  { rewrite recognized_cases. intros Hin.
    repeat (apply elem_of_cons in Hin as [Hin | Hin]; [discriminate Hin |]).
    inversion Hin. }
  split; [exact Hnot | apply (filterMoviesByYear_unrecognized _ _ Hnot)].
Defined.

(** ** The extraction of candidate titles *)

Section Strings.

Implicit Types (s t : string) (c sep : ascii).

Lemma append_nil s : "" +:+ s = s.
Proof. reflexivity. Qed.

Lemma append_cons c s t : String c s +:+ t = String c (s +:+ t).
Proof. reflexivity. Qed.

Lemma split_not_nil sep s : Js.split sep s ≠ [].
Proof.
  destruct s as [|c s]; simpl; [discriminate|].
  destruct (Ascii.eqb c sep); [discriminate|].
  destruct (Js.split sep s); discriminate.
Qed.

Lemma join_cons sep p q ps :
  Js.join sep (p :: q :: ps) = p +:+ String sep (Js.join sep (q :: ps)).
Proof. reflexivity. Qed.

Lemma join_split sep s : Js.join sep (Js.split sep s) = s.
Proof.
  induction s as [|c s IH]; [reflexivity|].
  simpl Js.split. pose proof (split_not_nil sep s) as Hne.
  destruct (Ascii.eqb_spec c sep) as [->|Hc].
  - destruct (Js.split sep s) as [|p ps]; [contradiction|].
    rewrite join_cons, IH. reflexivity.
  - destruct (Js.split sep s) as [|p ps]; [contradiction|].
    destruct ps as [|q ps].
    + simpl in *. rewrite IH. reflexivity.
    + rewrite join_cons in *. rewrite append_cons, IH. reflexivity.
Qed.

Lemma split_no_sep sep s :
  Forall (λ p, Js.contains sep p = false) (Js.split sep s).
Proof.
  induction s as [|c s IH]; simpl.
  - repeat constructor.
  - destruct (Ascii.eqb c sep) eqn:Hc.
    + constructor; [reflexivity | exact IH].
    + destruct (Js.split sep s) as [|p ps]; [repeat constructor; simpl; rewrite Hc; reflexivity|].
      inversion IH as [|? ? Hp Hps]; subst.
      constructor; [simpl; rewrite Hc, Hp; reflexivity | exact Hps].
Qed.

Lemma trimStart_decomp s :
  ∃ l, s = l +:+ Js.trimStart s ∧ Js.allWhiteSpace l = true.
Proof.
  induction s as [|c s [l [Hs Hl]]]; simpl.
  - exists "". split; reflexivity.
  - destruct (Js.isWhiteSpace c) eqn:Hc.
    + exists (String c l). rewrite append_cons, <- Hs. simpl. rewrite Hc, Hl.
      split; reflexivity.
    + exists "". split; reflexivity.
Qed.

Lemma trimStart_starts s : Js.startsWithWhiteSpace (Js.trimStart s) = false.
Proof.
  induction s as [|c s IH]; simpl; [reflexivity|].
  destruct (Js.isWhiteSpace c) eqn:Hc; [exact IH | simpl; exact Hc].
Qed.

Lemma trimEnd_decomp s :
  ∃ r, s = Js.trimEnd s +:+ r ∧ Js.allWhiteSpace r = true.
Proof.
  induction s as [|c s [r [Hs Hr]]]; simpl.
  - exists "". split; reflexivity.
  - destruct (Js.trimEnd s) as [|d s'] eqn:Ht.
    + rewrite append_nil in Hs. subst r.
      destruct (Js.isWhiteSpace c) eqn:Hc.
      * exists (String c s). simpl. rewrite Hc, Hr. split; reflexivity.
      * exists s. split; [reflexivity | exact Hr].
    + exists r. rewrite append_cons, <- Hs. split; [reflexivity | exact Hr].
Qed.

Lemma trimEnd_ends s : Js.endsWithWhiteSpace (Js.trimEnd s) = false.
Proof.
  induction s as [|c s IH]; simpl; [reflexivity|].
  destruct (Js.trimEnd s) as [|d s'] eqn:Ht.
  - destruct (Js.isWhiteSpace c) eqn:Hc; simpl; [reflexivity | exact Hc].
  - exact IH.
Qed.

Lemma trimEnd_starts s :
  Js.startsWithWhiteSpace s = false → Js.startsWithWhiteSpace (Js.trimEnd s) = false.
Proof.
  destruct s as [|c s]; simpl; [reflexivity|]. intros Hc.
  destruct (Js.trimEnd s); [rewrite Hc|]; simpl; exact Hc.
Qed.

Lemma trim_Trimmed s : Trimmed s (Js.trim s).
Proof.
  destruct (trimStart_decomp s) as [l [Hs Hl]].
  destruct (trimEnd_decomp (Js.trimStart s)) as [r [Ht Hr]].
  unfold Js.trim. rewrite Hs at 1. rewrite Ht at 1.
  constructor; [exact Hl | exact Hr | | apply trimEnd_ends].
  apply trimEnd_starts, trimStart_starts.
Qed.

Lemma allWhiteSpace_trimStart s : Js.allWhiteSpace s = true → Js.trimStart s = "".
Proof.
  induction s as [|c s IH]; simpl; [reflexivity|].
  destruct (Js.isWhiteSpace c); [exact IH | discriminate].
Qed.

Lemma allWhiteSpace_trim s : Js.allWhiteSpace s = true ↔ Js.trim s = "".
Proof.
  split.
  - intros H. unfold Js.trim. rewrite allWhiteSpace_trimStart by exact H. reflexivity.
  - intros H. destruct (trimStart_decomp s) as [l [Hs Hl]].
    destruct (trimEnd_decomp (Js.trimStart s)) as [r [Ht Hr]].
    unfold Js.trim in H. rewrite H, append_nil in Ht.
    rewrite Hs, Ht. clear -Hl Hr.
    induction l as [|c l IH]; [exact Hr|].
    simpl in Hl. apply andb_true_iff in Hl as [Hc Hl].
    rewrite append_cons. simpl. rewrite Hc, (IH Hl). reflexivity.
Qed.

Lemma truthy_nonempty s : Js.truthy s = negb (String.eqb s "").
Proof. destruct s; reflexivity. Qed.

Lemma split_whole sep s : Js.contains sep s = false → Js.split sep s = [s].
Proof.
  induction s as [|c s IH]; simpl; [reflexivity|].
  intros H. apply orb_false_iff in H as [Hc Hs].
  rewrite Hc, (IH Hs). reflexivity.
Qed.

Lemma split_append sep s t :
  Js.contains sep s = false →
  Js.split sep (s +:+ String sep t) = s :: Js.split sep t.
Proof.
  induction s as [|c s IH]; intros H.
  - rewrite append_nil. simpl. rewrite Ascii.eqb_refl. reflexivity.
  - simpl in H. apply orb_false_iff in H as [Hc Hs].
    rewrite append_cons. simpl. rewrite Hc, (IH Hs). reflexivity.
Qed.

Lemma split_join sep (pieces : list string) :
  pieces ≠ [] →
  Forall (λ p, Js.contains sep p = false) pieces →
  Js.split sep (Js.join sep pieces) = pieces.
Proof.
  induction pieces as [|p ps IH]; [contradiction|].
  intros _ Hall. inversion Hall as [|? ? Hp Hps]; subst.
  destruct ps as [|q ps].
  - simpl. apply split_whole, Hp.
  - rewrite join_cons, split_append by exact Hp.
    rewrite IH; [reflexivity | discriminate | exact Hps].
Qed.

Lemma trimStart_allWhiteSpace_append l s :
  Js.allWhiteSpace l = true → Js.trimStart (l +:+ s) = Js.trimStart s.
Proof.
  induction l as [|c l IH]; [reflexivity|]. simpl. intros H.
  apply andb_true_iff in H as [Hc Hl]. rewrite ?append_cons. simpl.
  rewrite Hc. apply IH, Hl.
Qed.

Lemma trimEnd_allWhiteSpace r : Js.allWhiteSpace r = true → Js.trimEnd r = "".
Proof.
  induction r as [|c r IH]; [reflexivity|]. simpl. intros H.
  apply andb_true_iff in H as [Hc Hr]. rewrite (IH Hr), Hc. reflexivity.
Qed.

Lemma trimEnd_append_allWhiteSpace t r :
  Js.endsWithWhiteSpace t = false → Js.allWhiteSpace r = true →
  Js.trimEnd (t +:+ r) = t.
Proof.
  intros Ht Hr. induction t as [|c t IH].
  - rewrite append_nil. apply trimEnd_allWhiteSpace, Hr.
  - rewrite append_cons. simpl. destruct t as [|d t].
    + rewrite append_nil, (trimEnd_allWhiteSpace r Hr).
      simpl in Ht. rewrite Ht. reflexivity.
    + rewrite IH by exact Ht. reflexivity.
Qed.

Lemma Trimmed_trim p t : Trimmed p t → t = Js.trim p.
Proof.
  intros [l t' r Hl Hr Hs He]. unfold Js.trim.
  rewrite trimStart_allWhiteSpace_append by exact Hl.
  destruct t' as [|c t'].
  - rewrite append_nil, allWhiteSpace_trimStart by exact Hr. reflexivity.
  - simpl in Hs.
    replace (Js.trimStart (String c t' +:+ r)) with (String c t' +:+ r)
      by (rewrite append_cons; simpl; rewrite Hs; reflexivity).
    rewrite trimEnd_append_allWhiteSpace by assumption. reflexivity.
Qed.

End Strings.

Lemma candidateTitles_is_extraction (text : string) :
  Extraction text (candidateTitles text).
Proof.
  exists (Js.split "," text), (List.map Js.trim (Js.split "," text)).
  split; [apply join_split|].
  split; [apply split_no_sep|].
  split.
  - induction (Js.split "," text) as [|p ps IH]; constructor;
      [apply trim_Trimmed | exact IH].
  - unfold candidateTitles. apply List.filter_ext, truthy_nonempty.
Qed.

Lemma Forall2_Trimmed_map (pieces trimmed : list string) :
  Forall2 Trimmed pieces trimmed → trimmed = List.map Js.trim pieces.
Proof.
  induction 1 as [|p t ps ts Hpt _ IH]; [reflexivity|].
  simpl. rewrite <- (Trimmed_trim p t Hpt), <- IH. reflexivity.
Qed.

(** C6.  For every text, the titles extracted are exactly those obtained by
    cutting the text at its commas, trimming each piece and leaving out the
    empty ones: in the order of the text, with repeated titles kept. *)
Theorem candidateTitles_extraction (text : string) (titles : list string) :
  Extraction text titles ↔ titles = candidateTitles text.
Proof.
  split; [| intros ->; apply candidateTitles_is_extraction].
  intros (pieces & trimmed & Hjoin & Hcut & Htrim & ->).
  apply Forall2_Trimmed_map in Htrim as ->.
  unfold candidateTitles. subst text.
  destruct pieces as [|p ps]; [reflexivity|].
  rewrite split_join by (discriminate || exact Hcut).
  apply List.filter_ext. intros t. symmetry. apply truthy_nonempty.
Qed.

Example candidateTitles_keeps_order_and_repeats :
  candidateTitles "Up, Toy Story 3 ,, Up,The Intouchables, "
  = ["Up"; "Toy Story 3"; "Up"; "The Intouchables"].
Proof. reflexivity. Qed.

(** ** Statements that keep a relation between the states *)

Section Keeps.

Context {S : Type} (rel : S → S → Prop) `{!PreOrder rel}.

Lemma Keeps_ret {R A} (a : A) : Keeps rel (ret (R:=R) a).
Proof. intros s. simpl. reflexivity. Qed.

Lemma Keeps_throw {R A} e : Keeps rel (throw (R:=R) (A:=A) e).
Proof. intros s. simpl. reflexivity. Qed.

Lemma Keeps_return {R A} r : Keeps rel (return_ (R:=R) (A:=A) r).
Proof. intros s. simpl. reflexivity. Qed.

Lemma Keeps_continue {R A} : Keeps rel (continue_ (R:=R) (A:=A)).
Proof. intros s. simpl. reflexivity. Qed.

Lemma Keeps_bind {R A B} (m : Stmt S R A) (k : A → Stmt S R B) :
  Keeps rel m → (∀ a, Keeps rel (k a)) → Keeps rel (bind m k).
Proof.
  intros Hm Hk s. unfold bind. specialize (Hm s).
  destruct (m s) as [[a| | |] s1]; simpl in *; try exact Hm.
  etrans; [exact Hm | apply Hk].
Qed.

Lemma Keeps_when {R} c (m : Stmt S R unit) : Keeps rel m → Keeps rel (when c m).
Proof. intros Hm. destruct c; [exact Hm | apply Keeps_ret]. Qed.

Lemma Keeps_try_catch {R A} (m : Stmt S R A) h :
  Keeps rel m → (∀ e, Keeps rel (h e)) → Keeps rel (try_catch m h).
Proof.
  intros Hm Hh s. unfold try_catch. specialize (Hm s).
  destruct (m s) as [[a| |e|] s1]; simpl in *; try exact Hm.
  etrans; [exact Hm | apply Hh].
Qed.

Lemma Keeps_for_of {R X} (xs : list X) (body : X → Stmt S R unit) :
  (∀ x, Keeps rel (body x)) → Keeps rel (for_of xs body).
Proof.
  intros Hb. induction xs as [|x xs IH]; intros s; simpl; [reflexivity|].
  specialize (Hb x s).
  destruct (body x s) as [[a| | |] s1]; simpl in *; try exact Hb;
    (etrans; [exact Hb | apply IH]).
Qed.

End Keeps.

Section KeepsLocals.

Context {L S : Type} (rel : S → S → Prop) `{!PreOrder rel}.

#[global] Instance onGlobal_preorder : PreOrder (onGlobal (L:=L) rel).
Proof.
  split.
  - intros ls. unfold onGlobal. reflexivity.
  - intros a b c Hab Hbc. unfold onGlobal in *. etrans; eassumption.
Qed.

Lemma Keeps_global {R A} (m : Stmt S R A) : Keeps rel m → Keeps (onGlobal rel) (global (L:=L) m).
Proof.
  intros Hm [l s]. unfold global, onGlobal. simpl. specialize (Hm s).
  destruct (m s) as [c s1]. exact Hm.
Qed.

Lemma Keeps_locals {R} : Keeps (onGlobal rel) (locals (L:=L) (S:=S) (R:=R)).
Proof. intros ls. unfold onGlobal. simpl. reflexivity. Qed.

Lemma Keeps_setLocals {R} f : Keeps (onGlobal rel) (setLocals (L:=L) (S:=S) (R:=R) f).
Proof. intros ls. unfold onGlobal. simpl. reflexivity. Qed.

Lemma Keeps_call {R R'} init (m : Stmt (L * S) R Empty_set) :
  Keeps (onGlobal rel) m → Keeps rel (call (R':=R') init m).
Proof.
  intros Hm s. unfold call. specialize (Hm (init, s)). unfold onGlobal in Hm.
  destruct (m (init, s)) as [[[]| | |] [l1 s1]]; exact Hm.
Qed.

End KeepsLocals.

(** ** The component *)

Section ComponentProperties.

Context {W : Type}.
Variable services : Services W.
Variables GEMINI_API_KEY OMDB_API_KEY : option string.

Ltac run :=
  cbv [bind ret when throw return_ continue_ get modify try_catch finally
       global locals setLocals call call_open json fst snd
       setMovies setIsLoading setError].

#[global] Instance sameView_preorder : PreOrder (@sameView W).
Proof.
  split.
  - intros s. repeat split.
  - intros a b c (H1 & H2 & H3 & H4 & H5) (K1 & K2 & K3 & K4 & K5).
    unfold sameView. rewrite K1, K2, K3, K4, K5. auto.
Qed.

Lemma Keeps_fetch {R A} req (serve : W → Fetched A * W) :
  Keeps sameView (fetch (R:=R) req serve).
Proof.
  intros s. unfold fetch. destruct (serve (world s)) as [[e|r] w']; repeat split.
Qed.

Lemma Keeps_json {S R A} (rel : S → S → Prop) `{!PreOrder rel} (r : HttpResponse A) :
  Keeps rel (json (R:=R) r).
Proof. unfold json. destruct (body r); [apply Keeps_throw | apply Keeps_ret]; exact _. Qed.

Ltac keeps_step :=
  first [ (apply Keeps_bind; try exact _); [|intros ?]
        | apply Keeps_when; try exact _
        | (apply Keeps_try_catch; try exact _); [|intros ?]
        | (apply Keeps_for_of; try exact _); intros ?
        | apply Keeps_throw; exact _
        | apply Keeps_return; exact _
        | apply Keeps_continue; exact _
        | apply Keeps_ret; exact _
        | apply Keeps_global; try exact _
        | apply Keeps_locals; exact _
        | apply Keeps_setLocals; exact _
        | apply Keeps_fetch
        | apply Keeps_json; exact _
        | match goal with
          | |- Keeps _ (match ?x with _ => _ end) => destruct x
          end ].

Lemma Keeps_getAiSuggestions {R} ui f :
  Keeps sameView (getAiSuggestions services GEMINI_API_KEY (R:=R) ui f).
Proof.
  unfold getAiSuggestions, getAiSuggestions_body.
  apply Keeps_call; try exact _.
  repeat keeps_step.
Qed.

Lemma Keeps_searchMoviesWithOMDb_try titles ui f :
  Keeps (onGlobal sameView) (searchMoviesWithOMDb_try services OMDB_API_KEY titles ui f).
Proof.
  unfold searchMoviesWithOMDb_try, titleStep, fallbackSearch, detailStep,
    seenMovies_add, results_push.
  repeat keeps_step.
Qed.

Lemma Keeps_searchMoviesWithOMDb {R} titles ui f :
  Keeps sameView (searchMoviesWithOMDb services OMDB_API_KEY (R:=R) titles ui f).
Proof.
  unfold searchMoviesWithOMDb.
  apply Keeps_call; try exact _.
  (apply Keeps_bind; try exact _); [apply Keeps_searchMoviesWithOMDb_try | intros _].
  unfold searchMoviesWithOMDb_rest, validMovies_set, validMovies_push, seenMovies_add.
  repeat keeps_step.
Qed.

(** *** Validation *)

(** C10.  When the input is empty or consists of white space only, the
    handler records the validation error and returns: the results, the
    loading flag, the world and the log of requests are as they were. *)
Theorem blank_input_rejected (s : State W) :
  Js.allWhiteSpace (userInput s) = true →
  handleMovieSuggestion_body services GEMINI_API_KEY OMDB_API_KEY s
  = (Return tt,
     mkState (userInput s) (filters s) (movies s) (isLoading s)
             (Some "Please describe your movie mood or scenario.")
             (world s) (sent s)).
Proof.
  intros Hblank. apply allWhiteSpace_trim in Hblank.
  unfold handleMovieSuggestion_body. run. rewrite Hblank. reflexivity.
Qed.

(** *** Failures *)

Lemma handleMovieSuggestion_enters (s : State W) :
  Js.truthy (Js.trim (userInput s)) = true →
  handleMovieSuggestion services GEMINI_API_KEY OMDB_API_KEY s
  = snd (suggestionProcess services GEMINI_API_KEY OMDB_API_KEY
           (userInput s) (filters s) (cleared s)).
Proof.
  intros Hinput. unfold handleMovieSuggestion, handleMovieSuggestion_body. run.
  rewrite Hinput. reflexivity.
Qed.

Lemma handleMovieSuggestion_failed (s s1 : State W) e :
  Js.truthy (Js.trim (userInput s)) = true →
  suggestionProcess_try services GEMINI_API_KEY OMDB_API_KEY
    (userInput s) (filters s) (cleared s) = (Throw e, s1) →
  handleMovieSuggestion services GEMINI_API_KEY OMDB_API_KEY s = failed s1 e.
Proof.
  intros Hinput Hthrow. rewrite handleMovieSuggestion_enters by exact Hinput.
  unfold suggestionProcess. run. rewrite Hthrow. reflexivity.
Qed.

Lemma suggestionProcess_try_throws (s0 s1 : State W) ui f e :
  suggestionProcess_try services GEMINI_API_KEY OMDB_API_KEY ui f s0 = (Throw e, s1) →
  sameView s0 s1.
Proof.
  unfold suggestionProcess_try, bind. intros Hthrow.
  pose proof (Keeps_getAiSuggestions (R:=unit) ui f s0) as Hg.
  destruct (getAiSuggestions services GEMINI_API_KEY ui f s0) as [[titles| |e1|] s2];
    simpl in Hg; try (injection Hthrow as <- <-; exact Hg); try discriminate Hthrow.
  pose proof (Keeps_searchMoviesWithOMDb (R:=unit) titles ui f s2) as Hs.
  destruct (searchMoviesWithOMDb services OMDB_API_KEY titles ui f s2)
    as [[fetched| |e2|] s3]; simpl in Hs;
    try (injection Hthrow as <- <-; etrans; eassumption); try discriminate Hthrow.
  destruct (Nat.ltb 0 (length fetched)); discriminate Hthrow.
Qed.

(** C7.  When an error is thrown in the [try] block of the handler, the
    handler leaves the component with an empty result list, the message of
    the error, and the loading flag off. *)
Theorem error_clears_results (s s1 : State W) e :
  Js.truthy (Js.trim (userInput s)) = true →
  suggestionProcess_try services GEMINI_API_KEY OMDB_API_KEY
    (userInput s) (filters s) (cleared s) = (Throw e, s1) →
  movies (handleMovieSuggestion services GEMINI_API_KEY OMDB_API_KEY s) = [] ∧
  error (handleMovieSuggestion services GEMINI_API_KEY OMDB_API_KEY s)
    = Some (messageOf e) ∧
  isLoading (handleMovieSuggestion services GEMINI_API_KEY OMDB_API_KEY s) = false.
Proof.
  intros Hinput Hthrow.
  rewrite (handleMovieSuggestion_failed s s1 e Hinput Hthrow).
  apply suggestionProcess_try_throws in Hthrow as (_ & _ & Hmovies & _).
  simpl. rewrite Hmovies. auto.
Qed.

(** The two errors of [getAiSuggestions] that come from the reply. *)
Lemma getAiSuggestions_bad_reply {R} (s : State W) ui f response w' :
  missing GEMINI_API_KEY = false →
  generate services (prompt ui f) (world s) = (FetchResolved response, w') →
  ok response = false ∨ body response = JsonData None
    ∨ body response = JsonData (Some "") →
  getAiSuggestions services GEMINI_API_KEY (R:=R) ui f s
  = (Throw (if ok response
            then "The AI returned an empty response. Please try again."
            else "Failed to get suggestions from the AI service."),
     afterFetch s (GenerateContent (prompt ui f)) w').
Proof.
  intros Hkey Hreply Hbad.
  unfold getAiSuggestions, getAiSuggestions_body, fetch. run.
  rewrite Hkey, Hreply. simpl.
  destruct (ok response); simpl.
  - destruct Hbad as [Hbad | [-> | ->]]; [discriminate Hbad | reflexivity ..].
  - reflexivity.
Qed.

(** C3.  When the reply of the generation service has a failure status,
    or its text is absent or empty, [getAiSuggestions] throws the
    corresponding error, and the handler ends with that message, no
    results, and a log to which only the generation request was added: no
    request went to the metadata service. *)
Theorem generation_failure_stops (s : State W) response w' :
  Js.truthy (Js.trim (userInput s)) = true →
  missing GEMINI_API_KEY = false →
  generate services (prompt (userInput s) (filters s)) (world s)
    = (FetchResolved response, w') →
  ok response = false ∨ body response = JsonData None
    ∨ body response = JsonData (Some "") →
  ∃ message,
    (message = "Failed to get suggestions from the AI service." ∨
     message = "The AI returned an empty response. Please try again.") ∧
    getAiSuggestions services GEMINI_API_KEY (R:=unit)
      (userInput s) (filters s) (cleared s)
    = (Throw message,
       afterFetch (cleared s) (GenerateContent (prompt (userInput s) (filters s))) w') ∧
    handleMovieSuggestion services GEMINI_API_KEY OMDB_API_KEY s
    = mkState (userInput s) (filters s) [] false (Some message) w'
              (sent s ++ [GenerateContent (prompt (userInput s) (filters s))]).
Proof.
  intros Hinput Hkey Hreply Hbad.
  pose proof (getAiSuggestions_bad_reply (R:=unit) (cleared s) _ _ _ _
                Hkey Hreply Hbad) as Hthrow.
  eexists. split; [| split; [exact Hthrow|]].
  - destruct (ok response); auto.
  - erewrite handleMovieSuggestion_failed; [| exact Hinput |].
    2: { unfold suggestionProcess_try, bind. rewrite Hthrow. reflexivity. }
    unfold failed, messageOf. destruct (ok response); reflexivity.
Qed.

(** *** The two loops *)

Lemma titleStep_next title l (s : State W) :
  ∃ c, (c = Normal tt ∨ c = Continue) ∧
       titleStep services title (l, s) = (c, titleNext services (l, s) title).
Proof.
  unfold titleStep, titleNext, fetch, resolved, seenMovies_add, results_push, kept. run.
  destruct (lookupTitle services title (world s)) as [[e|response] w']; simpl.
  - eauto.
  - destruct (ok response); simpl; [|eauto].
    destruct (body response) as [e|data]; simpl; [eauto|].
    destruct (String.eqb (Response data) "True" && negb (has (seenMovies l) (imdbID data)));
      simpl; eauto.
Qed.

Lemma for_of_titleStep titles (ls : Locals * State W) :
  for_of titles (titleStep services) ls
  = (Normal tt, fold_left (titleNext services) titles ls).
Proof.
  revert ls. induction titles as [|t titles IH]; intros [l s]; [reflexivity|].
  simpl. destruct (titleStep_next t l s) as (c & [-> | ->] & ->); apply IH.
Qed.

Lemma Deduplicated_kept l record :
  Deduplicated l → imdbID record ∉ seenMovies l → Deduplicated (kept l record).
Proof.
  intros [Hseen Hnodup] Hnew. unfold Deduplicated, kept. simpl.
  rewrite fmap_app, list_to_set_app_L. simpl. split.
  - rewrite Hseen. set_solver.
  - apply NoDup_app. split; [exact Hnodup|]. split; [| apply NoDup_singleton].
    intros id Hin ->%list_elem_of_singleton. apply Hnew. rewrite Hseen.
    apply elem_of_list_to_set, Hin.
Qed.

Lemma titleNext_facts (ls : Locals * State W) title :
  Deduplicated (fst ls) →
  Deduplicated (fst (titleNext services ls title)) ∧
  sent (snd (titleNext services ls title)) = sent (snd ls) ++ [TitleLookup title] ∧
  validMovies (fst (titleNext services ls title)) = validMovies (fst ls).
Proof.
  destruct ls as [l s]. unfold titleNext. simpl. intros Hl.
  destruct (lookupTitle services title (world s)) as [reply w']. simpl.
  split; [| split; [reflexivity|]].
  - destruct (resolved reply) as [data|]; [|exact Hl].
    destruct (String.eqb (Response data) "True"); simpl; [|exact Hl].
    unfold has. destruct (bool_decide_reflect (imdbID data ∈ seenMovies l)); simpl;
      [exact Hl | apply Deduplicated_kept; assumption].
  - destruct (resolved reply) as [data|]; [|reflexivity].
    destruct (_ && _); reflexivity.
Qed.

Lemma titleLoop_facts titles (s : State W) :
  Deduplicated (fst (titleLoop services titles s)) ∧
  sent (snd (titleLoop services titles s)) = sent s ++ (TitleLookup <$> titles) ∧
  validMovies (fst (titleLoop services titles s)) = [].
Proof.
  unfold titleLoop.
  assert (Hgen : ∀ ls, Deduplicated (fst ls) →
            Deduplicated (fst (fold_left (titleNext services) titles ls)) ∧
            sent (snd (fold_left (titleNext services) titles ls))
              = sent (snd ls) ++ (TitleLookup <$> titles) ∧
            validMovies (fst (fold_left (titleNext services) titles ls))
              = validMovies (fst ls)).
  { induction titles as [|t titles IH]; intros ls Hls; simpl.
    - rewrite app_nil_r. auto.
    - destruct (titleNext_facts ls t Hls) as (Hd & Hsent & Hvalid).
      destruct (IH _ Hd) as (Hd' & Hsent' & Hvalid').
      rewrite Hsent', Hsent, Hvalid', Hvalid, <- app_assoc. auto. }
  apply Hgen. split; [reflexivity | constructor].
Qed.

Lemma detailStep_seen hit l (s : State W) :
  imdbID hit ∈ seenMovies l →
  detailStep services hit (l, s) = (Continue, (l, s)).
Proof.
  intros Hin. unfold detailStep, has. run. rewrite bool_decide_eq_true_2 by exact Hin.
  reflexivity.
Qed.

Lemma detailStep_fresh hit l (s : State W) :
  imdbID hit ∉ seenMovies l →
  detailStep services hit (l, s)
  = (Normal tt,
     (match resolvable (fst (lookupId services (imdbID hit) (world s))) with
      | Some record => kept l record
      | None => l
      end,
      afterFetch s (DetailLookup (imdbID hit))
                 (snd (lookupId services (imdbID hit) (world s))))).
Proof.
  intros Hnew. unfold detailStep, has, fetch, resolvable, resolved,
    seenMovies_add, results_push, kept. run.
  rewrite bool_decide_eq_false_2 by exact Hnew.
  destruct (lookupId services (imdbID hit) (world s)) as [[e|response] w']; simpl;
    [reflexivity|].
  destruct (ok response); simpl; [|reflexivity].
  destruct (body response) as [e|data]; simpl; [reflexivity|].
  destruct (String.eqb (Response data) "True"); reflexivity.
Qed.

Lemma for_of_detailStep hits l (s : State W) :
  ∃ reqs recs seen' s',
    for_of hits (detailStep services) (l, s)
    = (Normal tt, (mkLocals seen' (results l ++ recs) (validMovies l), s')) ∧
    FallbackRun services hits (seenMovies l) (world s) reqs recs seen' (world s') ∧
    sent s' = sent s ++ reqs ∧
    sameView s s'.
Proof.
  revert l s. induction hits as [|hit hits IH]; intros l s.
  - exists [], [], (seenMovies l), s. simpl. rewrite !app_nil_r.
    destruct l. repeat split. constructor.
  - simpl. destruct (decide (imdbID hit ∈ seenMovies l)) as [Hin|Hnew].
    + rewrite detailStep_seen by exact Hin.
      destruct (IH l s) as (reqs & recs & seen' & s' & -> & Hrun & Hsent & Hview).
      exists reqs, recs, seen', s'. repeat split; try assumption; try apply Hview.
      apply FallbackRun_seen; assumption.
    + rewrite detailStep_fresh by exact Hnew.
      destruct (lookupId services (imdbID hit) (world s)) as [reply w1] eqn:Hreply.
      simpl. destruct (resolvable reply) as [record|] eqn:Hres.
      * destruct (IH (kept l record) (afterFetch s (DetailLookup (imdbID hit)) w1))
          as (reqs & recs & seen' & s' & -> & Hrun & Hsent & Hview).
        exists (DetailLookup (imdbID hit) :: reqs), (record :: recs), seen', s'.
        simpl in *. rewrite <- app_assoc in *. simpl in *.
        repeat split; try assumption; try apply Hview.
        eapply FallbackRun_kept; eassumption.
      * destruct (IH l (afterFetch s (DetailLookup (imdbID hit)) w1))
          as (reqs & recs & seen' & s' & -> & Hrun & Hsent & Hview).
        exists (DetailLookup (imdbID hit) :: reqs), recs, seen', s'.
        simpl in *. rewrite <- app_assoc in *. simpl in *.
        repeat split; try assumption; try apply Hview.
        eapply FallbackRun_dropped; eassumption.
Qed.

Lemma FallbackRun_requests hits seen w reqs recs seen' (w' : W) :
  FallbackRun services hits seen w reqs recs seen' w' →
  Forall (λ r, isKeywordSearch r = false) reqs.
Proof. induction 1; auto. Qed.

Lemma FallbackRun_deduplicated hits seen w reqs recs seen' (w' : W) :
  EchoesIds services →
  FallbackRun services hits seen w reqs recs seen' w' →
  seen' = list_to_set (imdbID <$> recs) ∪ seen ∧
  NoDup (imdbID <$> recs) ∧
  ∀ id, id ∈ (imdbID <$> recs) → id ∉ seen.
Proof.
  intros Hecho. induction 1 as [seen w | hit hits seen w reqs recs seen' w' Hin _ IH
    | hit hits seen w reply w1 record reqs recs seen' w' Hnew Hreply Hres _ IH
    | hit hits seen w reply w1 reqs recs seen' w' Hnew Hreply Hres _ IH].
  - simpl. split; [set_solver|]. split; [constructor | intros id Hid; inversion Hid].
  - exact IH.
  - destruct IH as (-> & Hnodup & Hfresh).
    pose proof (Hecho _ _ _ _ _ Hreply Hres) as Hid. simpl.
    split; [set_solver|]. split.
    + constructor; [| exact Hnodup]. intros Hdup. apply (Hfresh _ Hdup). set_solver.
    + intros id [->|Hid']%elem_of_cons.
      * rewrite Hid. exact Hnew.
      * specialize (Hfresh _ Hid'). set_solver.
  - exact IH.
Qed.

(** *** The [try] statement of [searchMoviesWithOMDb] *)

Lemma fallbackSearch_run ui l (s : State W) :
  let reply := fst (search services ui (world s)) in
  let s2 := afterFetch s (KeywordSearch ui) (snd (search services ui (world s))) in
  fallbackSearch services ui (l, s)
  = match searchFailure reply with
    | Some e => (Throw e, (l, s2))
    | None =>
        match hitsOf reply with
        | Some hits => for_of hits (detailStep services) (l, s2)
        | None => (Normal tt, (l, s2))
        end
    end.
Proof.
  unfold fallbackSearch, fetch, searchFailure, hitsOf, resolved. run.
  destruct (search services ui (world s)) as [[e|response] w2]; simpl; [reflexivity|].
  destruct (ok response); simpl; [|reflexivity].
  destruct (body response) as [e|data]; simpl; [reflexivity|].
  destruct (String.eqb (searchResponse data) "True"); simpl; [|reflexivity].
  destruct (Search data) as [hits|]; reflexivity.
Qed.

Lemma searchMoviesWithOMDb_try_no_key titles ui f (ls : Locals * State W) :
  missing OMDB_API_KEY = true →
  searchMoviesWithOMDb_try services OMDB_API_KEY titles ui f ls = (Throw searchError, ls).
Proof.
  intros Hkey. unfold searchMoviesWithOMDb_try. run. rewrite Hkey. reflexivity.
Qed.

Lemma searchMoviesWithOMDb_try_unfold titles ui f (s : State W) :
  missing OMDB_API_KEY = false →
  searchMoviesWithOMDb_try services OMDB_API_KEY titles ui f (noLocals, s)
  = let ls1 := titleLoop services titles s in
    match results (fst ls1) with
    | _ :: _ => (Return (returned f (fst ls1)), ls1)
    | [] =>
        match fallbackSearch services ui ls1 with
        | (Normal _, ls') => (Return (returned f (fst ls')), ls')
        | (Continue, ls') => (Continue, ls')
        | (Return r, ls') => (Return r, ls')
        | (Throw _, ls') => (Throw searchError, ls')
        end
    end.
Proof.
  intros Hkey. unfold searchMoviesWithOMDb_try, titleLoop, returned.
  unfold try_catch, bind at 1. unfold when at 1. rewrite Hkey.
  unfold ret at 1. unfold bind at 1. rewrite for_of_titleStep.
  destruct (fold_left (titleNext services) titles (noLocals, s)) as [l1 s1] eqn:Hloop.
  unfold bind at 1. unfold locals at 1. cbn [fst snd].
  destruct (results l1) as [|m ms] eqn:Hres.
  - unfold bind at 1. unfold when at 1. cbn [length Nat.eqb].
    destruct (fallbackSearch services ui (l1, s1)) as [[a| | |] [l' s']]; reflexivity.
  - unfold bind at 1. unfold when at 1. cbn [length Nat.eqb]. run. rewrite Hres.
    reflexivity.
Qed.

(** The [try] statement never completes normally; what it returns is
    read off the locals it leaves. *)
Lemma searchMoviesWithOMDb_try_run titles ui f (s : State W) :
  missing OMDB_API_KEY = false →
  let l1 := fst (titleLoop services titles s) in
  let s1 := snd (titleLoop services titles s) in
  let reply := fst (search services ui (world s1)) in
  let w2 := snd (search services ui (world s1)) in
  ∃ c l' s' reqs recs,
    searchMoviesWithOMDb_try services OMDB_API_KEY titles ui f (noLocals, s)
      = (c, (l', s')) ∧
    (c = Return (returned f l') ∨ c = Throw searchError) ∧
    results l' = results l1 ++ recs ∧
    validMovies l' = [] ∧
    (EchoesIds services → Deduplicated l') ∧
    (results l1 ≠ [] → c = Return (returned f l1) ∧ s' = s1) ∧
    (results l1 = [] →
       sent s' = sent s1 ++ KeywordSearch ui :: reqs ∧
       Forall (λ r, isKeywordSearch r = false) reqs ∧
       (searchFailure reply = None → c = Return (returned f l')) ∧
       ∀ hits, hitsOf reply = Some hits → searchFailure reply = None →
               FallbackRun services hits (seenMovies l1) w2 reqs recs
                           (seenMovies l') (world s')).
Proof.
  intros Hkey l1 s1 reply w2.
  rewrite searchMoviesWithOMDb_try_unfold by exact Hkey. cbn zeta.
  destruct (titleLoop_facts titles s) as (Hded & Hsent & Hvalid).
  fold l1 s1 in Hded, Hsent, Hvalid |- *.
  replace (titleLoop services titles s) with (l1, s1)
    by (unfold l1, s1; destruct (titleLoop services titles s); reflexivity).
  cbn [fst snd].
  destruct (results l1) as [|m ms] eqn:Hres.
  2: { exists (Return (returned f l1)), l1, s1, [], [].
       rewrite app_nil_r, Hres. repeat split; auto; first [discriminate | congruence | apply Hded]. }
  rewrite fallbackSearch_run. cbn zeta. fold reply w2.
  destruct (searchFailure reply) as [e|] eqn:Hfail.
  { exists (Throw searchError), l1, (afterFetch s1 (KeywordSearch ui) w2), [], [].
    rewrite app_nil_r. repeat split; auto; first [discriminate | congruence | apply Hded]. }
  destruct (hitsOf reply) as [hits|] eqn:Hhits.
  2: { exists (Return (returned f l1)), l1, (afterFetch s1 (KeywordSearch ui) w2), [], [].
       rewrite app_nil_r. repeat split; auto; first [discriminate | congruence | apply Hded]. }
  destruct (for_of_detailStep hits l1 (afterFetch s1 (KeywordSearch ui) w2))
    as (reqs & recs & seen' & s' & -> & Hrun & Hsent' & Hview).
  rewrite Hvalid, Hres in *. simpl in Hrun, Hsent'.
  exists (Return (returned f (mkLocals seen' recs []))), (mkLocals seen' recs []), s', reqs, recs.
  simpl. repeat split; auto; try congruence.
  - destruct Hded as [Hseen _].
    destruct (FallbackRun_deduplicated _ _ _ _ _ _ _ H Hrun) as (-> & Hnodup & _).
    simpl. rewrite Hseen, Hres. simpl. set_solver.
  - destruct (FallbackRun_deduplicated _ _ _ _ _ _ _ H Hrun) as (_ & Hnodup & _).
    exact Hnodup.
  - rewrite Hsent', <- app_assoc. reflexivity.
  - eapply FallbackRun_requests, Hrun.
Qed.

(** *** [searchMoviesWithOMDb] *)

Lemma searchMoviesWithOMDb_call {R} titles ui f (s : State W) c ls' :
  searchMoviesWithOMDb_try services OMDB_API_KEY titles ui f (noLocals, s) = (c, ls') →
  (∃ ms, c = Return ms) ∨ (∃ e, c = Throw e) →
  searchMoviesWithOMDb services OMDB_API_KEY (R:=R) titles ui f s
  = (match c with
     | Return ms => Normal ms
     | Throw e => Throw e
     | _ => Throw ""
     end, snd ls') ∧
  searchMoviesWithOMDb_trimmed services OMDB_API_KEY (R:=R) titles ui f s
  = (match c with
     | Return ms => Normal (Some ms)
     | Throw e => Throw e
     | _ => Throw ""
     end, snd ls').
Proof.
  intros Htry Hc. unfold searchMoviesWithOMDb, searchMoviesWithOMDb_trimmed,
    call, call_open, bind.
  rewrite Htry. destruct ls' as [l' s'].
  destruct Hc as [[ms ->] | [e ->]]; split; reflexivity.
Qed.

Lemma filter_fmap_NoDup {A B} `{EqDecision B} (g : A → B) (p : A → bool) (l : list A) :
  NoDup (g <$> l) → NoDup (g <$> List.filter p l).
Proof.
  induction l as [|x l IH]; simpl; [auto|].
  intros [Hx Hl]%NoDup_cons. destruct (p x); [|auto]. simpl.
  apply NoDup_cons. split; [|auto].
  intros Hin. apply Hx. apply list_elem_of_fmap in Hin as (y & -> & Hy).
  apply list_elem_of_fmap. exists y. split; [reflexivity|].
  apply list_elem_of_In. apply list_elem_of_In, List.filter_In in Hy. tauto.
Qed.

Lemma returned_facts f l :
  Forall (λ m, Poster m ≠ "N/A") (returned f l) ∧
  (NoDup (imdbID <$> results l) → NoDup (imdbID <$> returned f l)).
Proof.
  unfold returned, filterMoviesByYear. split.
  - apply Forall_forall. intros m Hm.
    assert (Hin : m ∈ List.filter hasPoster (results l)).
    { destruct (String.eqb (year f) "all"); [exact Hm|].
      apply list_elem_of_In. apply list_elem_of_In, List.filter_In in Hm. tauto. }
    apply list_elem_of_In, List.filter_In in Hin as [_ Hposter].
    unfold hasPoster in Hposter. apply negb_true_iff, String.eqb_neq in Hposter.
    exact Hposter.
  - intros Hnodup. destruct (String.eqb (year f) "all");
      repeat apply filter_fmap_NoDup; exact Hnodup.
Qed.

(** How far the invariant of the result holds.  When
    [searchMoviesWithOMDb] returns, no record of the list has the poster
    "N/A"; and no two records of the list have the same id when the title
    loop kept a record (there is then no fallback) or when the metadata
    service answers each lookup by id with the record of that id.  Outside
    these two cases the fallback loop can return one record twice. *)
Theorem returned_records_distinct {R} titles ui f (s s' : State W) ms :
  searchMoviesWithOMDb services OMDB_API_KEY (R:=R) titles ui f s = (Normal ms, s') →
  Forall (λ m, Poster m ≠ "N/A") ms ∧
  (EchoesIds services ∨ results (fst (titleLoop services titles s)) ≠ [] →
   NoDup (imdbID <$> ms)).
Proof.
  intros Hcall. destruct (missing OMDB_API_KEY) eqn:Hkey.
  { pose proof (searchMoviesWithOMDb_try_no_key titles ui f (noLocals, s) Hkey) as Htry.
    eapply (searchMoviesWithOMDb_call (R:=R)) in Htry as [Htry _]; [|eauto].
    rewrite Htry in Hcall. discriminate Hcall. }
  destruct (searchMoviesWithOMDb_try_run titles ui f s Hkey)
    as (c & l' & s2 & reqs & recs & Htry & Hc & _ & _ & Hecho & Hkept & _).
  eapply (searchMoviesWithOMDb_call (R:=R)) in Htry as [Htry _].
  2: { destruct Hc as [-> | ->]; eauto. }
  rewrite Htry in Hcall.
  destruct Hc as [-> | ->]; [|discriminate Hcall]. injection Hcall as <- <-.
  split; [apply returned_facts|].
  intros [Hservice | Hsome].
  - apply returned_facts, Hecho, Hservice.
  - destruct (Hkept Hsome) as [[= ->] _].
    apply returned_facts, titleLoop_facts.
Qed.

(** C9.  On every execution the [try] statement of [searchMoviesWithOMDb]
    completes with the [return] of its block or with the [throw] of its
    [catch], so the statements that follow it are never run: the function
    with those statements deleted returns and throws the same as the
    function itself and leaves the same state, and never returns
    [undefined]. *)
Theorem trailing_block_unreachable {R} titles ui f (s : State W) :
  ((∃ ms ls', searchMoviesWithOMDb_try services OMDB_API_KEY titles ui f (noLocals, s)
              = (Return ms, ls')) ∨
   (∃ ls', searchMoviesWithOMDb_try services OMDB_API_KEY titles ui f (noLocals, s)
           = (Throw searchError, ls'))) ∧
  searchMoviesWithOMDb_trimmed services OMDB_API_KEY (R:=R) titles ui f s
  = (defined (fst (searchMoviesWithOMDb services OMDB_API_KEY (R:=R) titles ui f s)),
     snd (searchMoviesWithOMDb services OMDB_API_KEY (R:=R) titles ui f s)).
Proof.
  assert (Htry : ∃ c ls',
            searchMoviesWithOMDb_try services OMDB_API_KEY titles ui f (noLocals, s)
              = (c, ls') ∧
            ((∃ ms, c = Return ms) ∨ c = Throw searchError)).
  { destruct (missing OMDB_API_KEY) eqn:Hkey.
    - rewrite searchMoviesWithOMDb_try_no_key by exact Hkey.
      eexists _, _. split; [reflexivity | right; reflexivity].
    - destruct (searchMoviesWithOMDb_try_run titles ui f s Hkey)
        as (c & l' & s2 & _ & _ & Htry & [-> | ->] & _); rewrite Htry;
        eexists _, _; (split; [reflexivity|]); eauto. }
  destruct Htry as (c & ls' & Htry & Hc). split.
  - rewrite Htry. destruct Hc as [[ms ->] | ->]; eauto.
  - destruct (searchMoviesWithOMDb_call (R:=R) titles ui f s c ls' Htry) as [-> ->].
    + destruct Hc as [[ms ->] | ->]; eauto.
    + destruct Hc as [[ms ->] | ->]; reflexivity.
Qed.

Lemma hitsOf_no_failure (reply : Fetched SearchReply) hits :
  hitsOf reply = Some hits → searchFailure reply = None.
Proof.
  unfold hitsOf, searchFailure, resolved.
  destruct reply as [e|response]; [discriminate|].
  destruct (ok response); [|reflexivity].
  destruct (body response); [discriminate | reflexivity].
Qed.

Lemma filter_isKeywordSearch_titles (titles : list string) :
  List.filter isKeywordSearch (TitleLookup <$> titles) = [].
Proof. induction titles; simpl; auto. Qed.

Lemma filter_none {A} (p : A → bool) (l : list A) :
  Forall (λ x, p x = false) l → List.filter p l = [].
Proof. induction 1 as [|x l Hx _ IH]; simpl; [reflexivity|]. rewrite Hx. exact IH. Qed.

(** The requests of the fallback.  With the credential present, the
    title loop sends one title lookup per title and nothing else.  If it
    kept a record, nothing more is sent.  If it kept none, one keyword
    search is sent, with the raw text, followed by no other keyword
    search; and when that search yields hits, the lookups made and the records
    pushed are those of [FallbackRun], started from the seen set of the
    title loop, and the function returns the pushed records, filtered.  So
    a keyword search, of either form, is sent at most once, and once
    exactly when the title loop kept nothing. *)
Theorem keyword_fallback_once {R} titles ui f (s : State W) :
  missing OMDB_API_KEY = false →
  let l1 := fst (titleLoop services titles s) in
  let s1 := snd (titleLoop services titles s) in
  let reply := fst (search services ui (world s1)) in
  let w2 := snd (search services ui (world s1)) in
  for_of titles (titleStep services) (noLocals, s) = (Normal tt, (l1, s1)) ∧
  sent s1 = sent s ++ (TitleLookup <$> titles) ∧
  ∃ c s' reqs recs,
    searchMoviesWithOMDb services OMDB_API_KEY (R:=R) titles ui f s = (c, s') ∧
    (results l1 ≠ [] → s' = s1) ∧
    (results l1 = [] →
       sent s' = sent s1 ++ KeywordSearch ui :: reqs ∧
       Forall (λ r, isKeywordSearch r = false) reqs ∧
       ∀ hits, hitsOf reply = Some hits →
         ∃ seen',
           FallbackRun services hits (seenMovies l1) w2 reqs recs seen' (world s') ∧
           c = Normal (filterMoviesByYear (List.filter hasPoster recs) (year f))) ∧
    (length (List.filter isKeywordSearch (sentSince (length (sent s)) s')) = 1%nat
     ↔ results l1 = []) ∧
    (length (List.filter isKeywordSearch (sentSince (length (sent s)) s')) ≤ 1)%nat.
Proof.
  intros Hkey l1 s1 reply w2.
  destruct (titleLoop_facts titles s) as (_ & Hsent & _). fold s1 in Hsent.
  split.
  { rewrite for_of_titleStep. unfold l1, s1, titleLoop.
    destruct (fold_left _ _ _); reflexivity. }
  split; [exact Hsent|].
  destruct (searchMoviesWithOMDb_try_run titles ui f s Hkey)
    as (c & l' & s' & reqs & recs & Htry & Hc & Hres & _ & _ & Hkept & Hnone).
  fold l1 s1 reply w2 in Hres, Hkept, Hnone.
  eapply (searchMoviesWithOMDb_call (R:=R)) in Htry as [Hcall _].
  2: { destruct Hc as [-> | ->]; eauto. }
  simpl in Hcall. eexists _, s', reqs, recs. split; [exact Hcall|].
  split; [intros Hsome; apply Hkept, Hsome|].
  assert (Hcount : ∀ extra, sent s' = sent s1 ++ extra →
            List.filter isKeywordSearch (sentSince (length (sent s)) s')
            = List.filter isKeywordSearch extra).
  { intros extra Hs'. unfold sentSince. rewrite Hs', Hsent, <- app_assoc.
    rewrite drop_app_length, List.filter_app, filter_isKeywordSearch_titles.
    reflexivity. }
  destruct (results l1) as [|m ms] eqn:Hl1.
  - destruct (Hnone eq_refl) as (Hs' & Hreqs & Hok & Hrun).
    rewrite (Hcount _ Hs'). simpl. rewrite (filter_none _ _ Hreqs). simpl.
    split; [|split; [tauto | lia]].
    intros _. split; [exact Hs'|]. split; [exact Hreqs|].
    intros hits Hhits. exists (seenMovies l').
    pose proof (hitsOf_no_failure _ _ Hhits) as Hfail.
    split; [apply Hrun; assumption|].
    rewrite (Hok Hfail). unfold returned. simpl in Hres. rewrite Hres. reflexivity.
  - destruct (Hkept ltac:(discriminate)) as [_ ->].
    rewrite (Hcount [] ltac:(rewrite app_nil_r; reflexivity)). simpl.
    split; [discriminate|]. split; [split; discriminate | lia].
Qed.

End ComponentProperties.

(** ** Runs in the example worlds *)

(** The example of the design record: three suggested titles, all found;
    the two of the years 2010-2019 are returned. *)
Example suggestion_example :
  let s := handleMovieSuggestion catalogue (Some "g") (Some "o")
             (submitting "a funny family movie" (mkFilters "english" "comedy" "2010s") [] 0%nat) in
  movies s = [toyStory3; intouchables] ∧ error s = None ∧ isLoading s = false ∧
  world s = 4%nat ∧
  tail (sent s) = [TitleLookup "Up"; TitleLookup "Toy Story 3"; TitleLookup "The Intouchables"].
Proof. vm_compute. repeat split. Qed.

(** C1.  The code breaks the invariant of the result.  In the world
    [merged], where the search lists the film under two ids and a lookup by
    either id is answered with the one record, the fallback loop pushes
    that record for each of the two hits, and the returned list holds it
    twice: the loop tests the id of the hit (line 141) but not the id of
    the fetched record, as the title loop does (line 122). *)
Lemma duplicate_ids_returned :
  fst (searchMoviesWithOMDb merged (Some "o") (R:=unit) ["Metropolys"] "metropolis" anyYear
         (submitting "metropolis" anyYear [] tt))
  = Normal [metropolis; metropolis] ∧
  ¬ NoDup (imdbID <$> [metropolis; metropolis]).
Proof.
  split; [vm_compute; reflexivity|].
  intros Hnodup. apply NoDup_cons in Hnodup as [Hnotin _]. apply Hnotin. constructor.
Qed.

(** On the same replies the title loop keeps the record once: its test of
    the fetched record's id is what the fallback loop lacks. *)
Example title_loop_keeps_one :
  fst (searchMoviesWithOMDb retitled (Some "o") (R:=unit)
         ["Metropolis"; "Metropolis (1927)"] "metropolis" anyYear
         (submitting "metropolis" anyYear [] tt))
  = Normal [metropolis].
Proof. vm_compute. reflexivity. Qed.

(** C4.  The code breaks the second half of the claim.  In the world
    [merged] the title loop keeps nothing and the fallback sends one
    keyword search with the raw text, then one detail lookup for each of
    the two hits, neither id having been seen: so far as the claim says.
    But when the turn for the second hit starts, the id of the film is in
    the seen set, and the record fetched for that hit, which carries this
    id, is pushed all the same.  A turn of the title loop started from the
    same locals, and answered with the same record, pushes nothing. *)
Theorem fallback_keeps_seen_record :
  let s := submitting "metropolis" anyYear [] tt in
  let afterFirst := kept noLocals metropolis in
  sent (snd (searchMoviesWithOMDb merged (Some "o") (R:=unit)
               ["Metropolys"] "metropolis" anyYear s))
  = [TitleLookup "Metropolys"; KeywordSearch "metropolis";
     DetailLookup "tt0017136"; DetailLookup "tt9999999"] ∧
  results (fst (titleLoop merged ["Metropolys"] s)) = [] ∧
  (imdbID secondListing ∉ seenMovies afterFirst) ∧
  (imdbID metropolis ∈ seenMovies afterFirst) ∧
  resolvable (fst (lookupId merged (imdbID secondListing) tt)) = Some metropolis ∧
  results (fst (snd (detailStep merged secondListing (afterFirst, s))))
  = [metropolis; metropolis] ∧
  results (fst (snd (titleStep retitled "Metropolis (1927)" (afterFirst, s))))
  = [metropolis].
Proof.
  intros s afterFirst.
  assert (Hseen : imdbID metropolis ∈ seenMovies afterFirst)
    by (unfold afterFirst, kept; simpl; set_solver).
  assert (Hunseen : imdbID secondListing ∉ seenMovies afterFirst).
  { unfold afterFirst, kept. simpl. intros Hin.
    apply elem_of_union in Hin as [Hin%elem_of_singleton | Hin]; [discriminate Hin|].
    apply not_elem_of_empty in Hin. exact Hin. }
  split; [vm_compute; reflexivity|].
  split; [vm_compute; reflexivity|].
  split; [exact Hunseen|]. split; [exact Hseen|].
  split; [reflexivity|].
  split; [vm_compute; reflexivity | vm_compute; reflexivity].
Qed.

Lemma catalogue_echoes : EchoesIds catalogue.
Proof.
  intros id w reply w' record [= <- <-]. unfold resolvable, lookup, resolved.
  destruct (List.find _ records) as [m|] eqn:Hfind; simpl.
  - destruct (String.eqb (Response m) "True"); [|discriminate].
    intros [= <-]. apply List.find_some in Hfind as [_ Hid].
    apply String.eqb_eq in Hid. exact Hid.
  - discriminate.
Qed.

Lemma returned_records_distinct_witness :
  let s := submitting "balloons and toys" anyYear [] 0%nat in
  let s' := snd (searchMoviesWithOMDb catalogue (Some "o") (R:=unit)
                   ["Up"; "Toy Story 3"; "Up"; "Lost Reel"] "balloons and toys" anyYear s) in
  searchMoviesWithOMDb catalogue (Some "o") (R:=unit)
    ["Up"; "Toy Story 3"; "Up"; "Lost Reel"] "balloons and toys" anyYear s
  = (Normal [up; toyStory3], s') ∧
  Forall (λ m, Poster m ≠ "N/A") [up; toyStory3] ∧
  NoDup (imdbID <$> [up; toyStory3]).
Proof.
  intros s s'.
  assert (Hrun : searchMoviesWithOMDb catalogue (Some "o") (R:=unit)
                   ["Up"; "Toy Story 3"; "Up"; "Lost Reel"] "balloons and toys" anyYear s
                 = (Normal [up; toyStory3], s'))
    by (vm_compute; reflexivity).
  split; [exact Hrun|].
  destruct (returned_records_distinct catalogue (Some "o") _ _ _ s s' _ Hrun)
    as [Hposter Hdistinct].
  split; [exact Hposter | exact (Hdistinct (or_introl catalogue_echoes))].
Defined.

Lemma blank_input_rejected_witness :
  let s := submitting "  	 " anyYear [up] tt in
  Js.allWhiteSpace (userInput s) = true ∧
  handleMovieSuggestion_body offline (Some "g") (Some "o") s
  = (Return tt,
     mkState "  	 " anyYear [up] false
             (Some "Please describe your movie mood or scenario.") tt []).
Proof.
  intros s.
  assert (Hblank : Js.allWhiteSpace (userInput s) = true) by reflexivity.
  split; [exact Hblank|].
  exact (blank_input_rejected offline (Some "g") (Some "o") s Hblank).
Defined.

Lemma error_clears_results_witness :
  let s := submitting "heist" anyYear [up; toyStory3] tt in
  Js.truthy (Js.trim (userInput s)) = true ∧
  movies (handleMovieSuggestion offline (Some "g") (Some "o") s) = [] ∧
  error (handleMovieSuggestion offline (Some "g") (Some "o") s)
    = Some (messageOf "Failed to fetch") ∧
  isLoading (handleMovieSuggestion offline (Some "g") (Some "o") s) = false.
Proof.
  intros s.
  assert (Hinput : Js.truthy (Js.trim (userInput s)) = true) by reflexivity.
  split; [exact Hinput|].
  refine (error_clears_results offline (Some "g") (Some "o") s
            (snd (suggestionProcess_try offline (Some "g") (Some "o")
                    (userInput s) (filters s) (cleared s)))
            "Failed to fetch" Hinput _).
  vm_compute. reflexivity.
Defined.

Lemma generation_failure_stops_witness :
  let s := submitting "heist" anyYear [up] tt in
  ∃ message,
    (message = "Failed to get suggestions from the AI service." ∨
     message = "The AI returned an empty response. Please try again.") ∧
    getAiSuggestions overloaded (Some "g") (R:=unit) (userInput s) (filters s) (cleared s)
    = (Throw message,
       afterFetch (cleared s) (GenerateContent (prompt (userInput s) (filters s))) tt) ∧
    handleMovieSuggestion overloaded (Some "g") (Some "o") s
    = mkState (userInput s) (filters s) [] false (Some message) tt
              (sent s ++ [GenerateContent (prompt (userInput s) (filters s))]).
Proof.
  intros s.
  refine (generation_failure_stops overloaded (Some "g") (Some "o") s
            (mkResponse false (JsonRejected "Unexpected token <")) tt _ _ _ _).
  - reflexivity.
  - reflexivity.
  - reflexivity.
  - left. reflexivity.
Defined.

Lemma keyword_fallback_once_witness :
  let s := submitting "reel" anyYear [] 0%nat in
  missing (Some "o") = false ∧
  ∃ c s' reqs recs,
    searchMoviesWithOMDb catalogue (Some "o") (R:=unit) ["Unknown"] "reel" anyYear s
      = (c, s') ∧
    sent s' = [TitleLookup "Unknown"] ++ KeywordSearch "reel" :: reqs ∧
    Forall (λ r, isKeywordSearch r = false) reqs ∧
    (∃ seen', FallbackRun catalogue records ∅ 2%nat reqs recs seen' (world s') ∧
              c = Normal (filterMoviesByYear (List.filter hasPoster recs) "all")) ∧
    length (List.filter isKeywordSearch (sentSince 0 s')) = 1%nat.
Proof.
  intros s.
  assert (Hkey : missing (Some "o") = false) by reflexivity.
  split; [exact Hkey|].
  destruct (keyword_fallback_once catalogue (Some "o") (R:=unit) ["Unknown"] "reel"
              anyYear s Hkey)
    as (_ & _ & c & s' & reqs & recs & Hcall & _ & Hnone & Hcount & _).
  destruct (Hnone eq_refl) as (Hsent & Hreqs & Hhits).
  exists c, s', reqs, recs.
  split; [exact Hcall|]. split; [exact Hsent|]. split; [exact Hreqs|].
  split; [exact (Hhits records eq_refl) | exact (proj2 Hcount eq_refl)].
Defined.

(** ** The built-ins on sample inputs *)

Example parseInt_plain : Js.parseInt "2014" = Some 2014.
Proof. reflexivity. Qed.

Example parseInt_series : Js.parseInt " 2011-2019" = Some 2011.
Proof. reflexivity. Qed.

Example parseInt_hex : Js.parseInt "0x7BC" = Some 1980.
Proof. reflexivity. Qed.

Example parseInt_signed : Js.parseInt "-12abc" = Some (-12).
Proof. reflexivity. Qed.

Example parseInt_nan : Js.parseInt "N/A" = None ∧ Js.parseInt "" = None ∧ Js.parseInt "0x" = None.
Proof. repeat split. Qed.

Example split_empty_pieces : Js.split "," "a,,b," = ["a"; ""; "b"; ""].
Proof. reflexivity. Qed.

Example trim_inner_space_kept : Js.trim "  a b  " = "a b".
Proof. reflexivity. Qed.

(** * Further properties *)

(** ** The year filter, continued *)

Section YearFilterMore.

Implicit Types (movies : list Movie) (yearFilter : string) (m : Movie).

Lemma List_filter_sublist {A} (p : A → bool) (l : list A) : sublist (List.filter p l) l.
Proof.
  induction l as [|x l IH]; simpl; [constructor|].
  destruct (p x); [apply sublist_skip | apply sublist_cons]; exact IH.
Qed.

Lemma List_filter_comm {A} (p q : A → bool) (l : list A) :
  List.filter p (List.filter q l) = List.filter q (List.filter p l).
Proof.
  induction l as [|x l IH]; simpl; [reflexivity|].
  destruct (p x) eqn:Hp, (q x) eqn:Hq; simpl; rewrite ?Hp, ?Hq, IH; reflexivity.
Qed.

Lemma filterMoviesByYear_sublist_aux movies yearFilter :
  sublist (filterMoviesByYear movies yearFilter) movies.
Proof.
  unfold filterMoviesByYear. destruct (String.eqb yearFilter "all");
    [reflexivity | apply List_filter_sublist].
Qed.

(** X1.  The filter only leaves records out: what it returns is the input with
    some records removed, in the order of the input. *)
Theorem filterMoviesByYear_sublist movies yearFilter :
  sublist (filterMoviesByYear movies yearFilter) movies ∧
  (length (filterMoviesByYear movies yearFilter) ≤ length movies)%nat.
Proof.
  pose proof (filterMoviesByYear_sublist_aux movies yearFilter) as Hsub.
  split; [exact Hsub | apply sublist_length, Hsub].
Qed.

(** X2.  The filter works record by record: it distributes over the
    concatenation of two lists, and it can be exchanged with the removal
    of the records without a poster. *)
Theorem filterMoviesByYear_composes movies movies' yearFilter :
  filterMoviesByYear (movies ++ movies') yearFilter
  = filterMoviesByYear movies yearFilter ++ filterMoviesByYear movies' yearFilter ∧
  filterMoviesByYear (List.filter hasPoster movies) yearFilter
  = List.filter hasPoster (filterMoviesByYear movies yearFilter).
Proof.
  unfold filterMoviesByYear. destruct (String.eqb yearFilter "all").
  - split; reflexivity.
  - split; [apply List.filter_app | apply List_filter_comm].
Qed.

Lemma yearBuckets_cases (P : string → Prop) :
  P "2025" → P "2024" → P "2023" → P "2022" → P "2021" → P "2020" →
  P "2010s" → P "2000s" → P "1990s" → P "1980s" → P "classic" →
  ∀ b, b ∈ yearBuckets → P b.
Proof.
  intros ? ? ? ? ? ? ? ? ? ? ? b Hb. unfold yearBuckets in Hb.
  repeat (apply elem_of_cons in Hb as [-> | Hb]; [assumption|]).
  inversion Hb.
Qed.

Lemma yearSwitch_disjoint b1 b2 (y : Z) :
  b1 ∈ yearBuckets → b2 ∈ yearBuckets → b1 ≠ b2 →
  yearSwitch b1 y = true → yearSwitch b2 y = false.
Proof.
  intros H1 H2. revert b2 H2. pattern b1. revert b1 H1.
  apply yearBuckets_cases; intros b2 H2; pattern b2; revert b2 H2;
    apply yearBuckets_cases; intros Hne Hy; try congruence;
    cbn in Hy |- *; lia.
Qed.

Lemma yearBuckets_not_all b : b ∈ yearBuckets → String.eqb b "all" = false.
Proof. revert b. apply yearBuckets_cases; reflexivity. Qed.

Lemma filter_nothing {A} (p : A → bool) (l : list A) :
  (∀ x, x ∈ l → p x = false) → List.filter p l = [].
Proof.
  induction l as [|x l IH]; intros Hall; simpl; [reflexivity|].
  rewrite (Hall x) by constructor. apply IH. intros y Hy. apply Hall. constructor. exact Hy.
Qed.

(** X3.  No record falls into two buckets: filtering by one year bucket and
    then by another leaves nothing. *)
Theorem year_buckets_disjoint movies b1 b2 :
  b1 ∈ yearBuckets → b2 ∈ yearBuckets → b1 ≠ b2 →
  filterMoviesByYear (filterMoviesByYear movies b1) b2 = [].
Proof.
  intros H1 H2 Hne. unfold filterMoviesByYear.
  rewrite (yearBuckets_not_all b1 H1), (yearBuckets_not_all b2 H2).
  apply filter_nothing. intros m Hm.
  apply list_elem_of_In, List.filter_In in Hm as [_ Hm].
  unfold yearKeeps in *. destruct (Js.parseInt (Year m)) as [y|]; [|reflexivity].
  exact (yearSwitch_disjoint b1 b2 y H1 H2 Hne Hm).
Qed.

Lemma yearSwitch_covered (y : Z) :
  (∃ b, b ∈ yearBuckets ∧ yearSwitch b y = true) ↔ y ≤ 2025.
Proof.
  split.
  - intros (b & Hb & Hy). revert Hy. pattern b. revert b Hb.
    apply yearBuckets_cases; cbn; lia.
  - intros Hy.
    assert (Hcase : y < 1980 ∨ (1980 ≤ y ≤ 1989) ∨ (1990 ≤ y ≤ 1999) ∨ (2000 ≤ y ≤ 2009)
                    ∨ (2010 ≤ y ≤ 2019) ∨ y = 2020 ∨ y = 2021 ∨ y = 2022 ∨ y = 2023
                    ∨ y = 2024 ∨ y = 2025) by lia.
    destruct Hcase as [H|[H|[H|[H|[H|[H|[H|[H|[H|[H|H]]]]]]]]]].
    + exists "classic". split; [unfold yearBuckets; set_solver | cbn; lia].
    + exists "1980s". split; [unfold yearBuckets; set_solver | cbn; lia].
    + exists "1990s". split; [unfold yearBuckets; set_solver | cbn; lia].
    + exists "2000s". split; [unfold yearBuckets; set_solver | cbn; lia].
    + exists "2010s". split; [unfold yearBuckets; set_solver | cbn; lia].
    + exists "2020". split; [unfold yearBuckets; set_solver | cbn; lia].
    + exists "2021". split; [unfold yearBuckets; set_solver | cbn; lia].
    + exists "2022". split; [unfold yearBuckets; set_solver | cbn; lia].
    + exists "2023". split; [unfold yearBuckets; set_solver | cbn; lia].
    + exists "2024". split; [unfold yearBuckets; set_solver | cbn; lia].
    + exists "2025". split; [unfold yearBuckets; set_solver | cbn; lia].
Qed.

(** X4.  A record of the list is let through by some year bucket exactly when
    its year parses to an integer that is at most 2025: a film of a later
    year, or one whose year does not parse, passes under "all" only. *)
Theorem year_buckets_cover movies m :
  m ∈ movies →
  (∃ b, b ∈ yearBuckets ∧ m ∈ filterMoviesByYear movies b) ↔
  (∃ y, Js.parseInt (Year m) = Some y ∧ y ≤ 2025).
Proof.
  intros Hin. split.
  - intros (b & Hb & Hm). unfold filterMoviesByYear in Hm.
    rewrite (yearBuckets_not_all b Hb) in Hm.
    apply list_elem_of_In, List.filter_In in Hm as [_ Hm]. unfold yearKeeps in Hm.
    destruct (Js.parseInt (Year m)) as [y|]; [|discriminate].
    exists y. split; [reflexivity|]. apply yearSwitch_covered. eauto.
  - intros (y & Hparse & Hy). apply yearSwitch_covered in Hy as (b & Hb & Hy).
    exists b. split; [exact Hb|]. unfold filterMoviesByYear.
    rewrite (yearBuckets_not_all b Hb).
    apply list_elem_of_In, List.filter_In. split; [apply list_elem_of_In, Hin|].
    unfold yearKeeps. rewrite Hparse. exact Hy.
Qed.

End YearFilterMore.

(** ** The candidate titles, continued *)

Section TitlesMore.

Lemma contains_append c (a b : string) :
  Js.contains c (a +:+ b) = Js.contains c a || Js.contains c b.
Proof.
  induction a as [|d a IH]; [reflexivity|].
  rewrite append_cons. simpl. rewrite IH, orb_assoc. reflexivity.
Qed.

Lemma Trimmed_contains c (p t : string) :
  Trimmed p t → Js.contains c p = false → Js.contains c t = false.
Proof.
  intros [l t' r _ _ _ _]. rewrite !contains_append.
  intros H. apply orb_false_iff in H as [_ H]. apply orb_false_iff in H as [H _]. exact H.
Qed.

Lemma candidateTitles_elem (text t : string) :
  t ∈ candidateTitles text → wellFormedTitle t.
Proof.
  intros Ht. unfold candidateTitles in Ht.
  apply list_elem_of_In, List.filter_In in Ht as [Ht Htruthy].
  apply List.in_map_iff in Ht as (p & <- & Hp).
  pose proof (trim_Trimmed p) as Htrim.
  assert (Hcomma : Js.contains "," p = false).
  { pose proof (split_no_sep "," text) as Hall.
    rewrite Forall_forall in Hall. apply Hall, list_elem_of_In, Hp. }
  unfold wellFormedTitle. split; [|split; [|split]].
  - intros Hempty. rewrite Hempty in Htruthy. discriminate.
  - exact (Trimmed_contains _ _ _ Htrim Hcomma).
  - apply trimEnd_starts, trimStart_starts.
  - apply trimEnd_ends.
Qed.

(** X5.  Every title extracted from a text is well formed: it is not empty,
    contains no comma, and neither starts nor ends with white space. *)
Theorem candidateTitles_well_formed (text : string) :
  Forall wellFormedTitle (candidateTitles text).
Proof.
  apply Forall_forall. intros t Ht. eapply candidateTitles_elem. exact Ht.
Qed.

Lemma split_all_blank (s : string) :
  Forall (λ p, Js.allWhiteSpace p = true) (Js.split "," s) ↔ onlySeparators s = true.
Proof.
  induction s as [|c s IH]; simpl.
  - split; [reflexivity | repeat constructor].
  - destruct (Ascii.eqb c ",") eqn:Hc; simpl.
    + rewrite Forall_cons, IH. simpl. tauto.
    + pose proof (split_not_nil "," s) as Hne.
      destruct (Js.split "," s) as [|p ps]; [contradiction|].
      rewrite andb_true_iff, <- IH, !Forall_cons. simpl.
      rewrite andb_true_iff. tauto.
Qed.

Lemma filter_nil_iff {A} (p : A → bool) (l : list A) :
  List.filter p l = [] ↔ Forall (λ x, p x = false) l.
Proof.
  induction l as [|x l IH]; simpl.
  - split; [constructor | reflexivity].
  - rewrite Forall_cons. destruct (p x); [|rewrite IH; tauto].
    split; [discriminate | intros [H _]; discriminate H].
Qed.

(** X6.  No title at all comes out of a text exactly when the text consists of
    commas and white space only. *)
Theorem candidateTitles_none (text : string) :
  candidateTitles text = [] ↔ onlySeparators text = true.
Proof.
  unfold candidateTitles. rewrite filter_nil_iff, <- split_all_blank.
  rewrite Forall_forall, Forall_forall. split.
  - intros H p Hp. apply allWhiteSpace_trim.
    specialize (H (Js.trim p)). rewrite truthy_nonempty in H.
    apply negb_false_iff, String.eqb_eq in H; [exact H|].
    apply list_elem_of_In, List.in_map, list_elem_of_In, Hp.
  - intros H t Ht. apply list_elem_of_In, List.in_map_iff in Ht as (p & <- & Hp).
    apply list_elem_of_In, H, allWhiteSpace_trim in Hp. rewrite Hp. reflexivity.
Qed.

End TitlesMore.

(** ** The filter selectors *)

Section Selectors.

Context {W : Type}.
Implicit Types (s : State W) (id value : string).

(** X7.  A second change through one selector replaces the first. *)
Theorem handleFilterChange_last_wins id value value' s :
  handleFilterChange id value' (handleFilterChange id value s)
  = handleFilterChange id value' s.
Proof.
  unfold handleFilterChange, withProperty. simpl.
  destruct (String.eqb _ "language"); [reflexivity|].
  destruct (String.eqb _ "genre"); [reflexivity|].
  destruct (String.eqb _ "year"); reflexivity.
Qed.

(** X8.  Changes through two selectors that name different properties can be
    made in either order. *)
Theorem handleFilterChange_commutes id id' value value' s :
  replaceFirst "Filter" "" id ≠ replaceFirst "Filter" "" id' →
  handleFilterChange id value (handleFilterChange id' value' s)
  = handleFilterChange id' value' (handleFilterChange id value s).
Proof.
  unfold handleFilterChange, withProperty. simpl. intros Hne.
  destruct (String.eqb_spec (replaceFirst "Filter" "" id) "language") as [H1|_];
  destruct (String.eqb_spec (replaceFirst "Filter" "" id') "language") as [H1'|_];
    try congruence; try reflexivity;
  destruct (String.eqb_spec (replaceFirst "Filter" "" id) "genre") as [H2|_];
  destruct (String.eqb_spec (replaceFirst "Filter" "" id') "genre") as [H2'|_];
    try congruence; try reflexivity;
  destruct (String.eqb_spec (replaceFirst "Filter" "" id) "year") as [H3|_];
  destruct (String.eqb_spec (replaceFirst "Filter" "" id') "year") as [H3'|_];
    try congruence; reflexivity.
Qed.

(** X9.  Each of the three selectors of the form writes the property it is
    named after and nothing else: the other two filters, the input, the
    results, the flags, the world and the log stay as they were. *)
Theorem selectors_write_their_filter value s :
  handleFilterChange "languageFilter" value s
  = mkState (userInput s) (mkFilters value (genre (filters s)) (year (filters s)))
            (movies s) (isLoading s) (error s) (world s) (sent s) ∧
  handleFilterChange "genreFilter" value s
  = mkState (userInput s) (mkFilters (language (filters s)) value (year (filters s)))
            (movies s) (isLoading s) (error s) (world s) (sent s) ∧
  handleFilterChange "yearFilter" value s
  = mkState (userInput s) (mkFilters (language (filters s)) (genre (filters s)) value)
            (movies s) (isLoading s) (error s) (world s) (sent s).
Proof. repeat split. Qed.

End Selectors.

Lemma handleFilterChange_commutes_witness :
  let s := submitting "heist" anyYear [up] tt in
  replaceFirst "Filter" "" "yearFilter" ≠ replaceFirst "Filter" "" "genreFilter" ∧
  handleFilterChange "yearFilter" "1990s" (handleFilterChange "genreFilter" "crime" s)
  = handleFilterChange "genreFilter" "crime" (handleFilterChange "yearFilter" "1990s" s).
Proof.
  intros s.
  assert (Hne : replaceFirst "Filter" "" "yearFilter"
                ≠ replaceFirst "Filter" "" "genreFilter") by discriminate.
  split; [exact Hne|].
  exact (handleFilterChange_commutes "yearFilter" "genreFilter" "1990s" "crime" s Hne).
Defined.

(** ** The component, continued *)

Section ComponentMore.

Context {W : Type}.
Variable services : Services W.
Variables GEMINI_API_KEY OMDB_API_KEY : option string.

Ltac unfold_stmt :=
  cbv [bind ret when throw return_ continue_ get modify try_catch finally
       global locals setLocals call call_open json fst snd
       setMovies setIsLoading setError].

(** *** What the two helpers do, case by case *)

Lemma getAiSuggestions_cases {R} ui f (s : State W) :
  getAiSuggestions services GEMINI_API_KEY (R:=R) ui f s
  = if missing GEMINI_API_KEY then (Throw geminiKeyError, s)
    else
      let s' := afterFetch s (GenerateContent (prompt ui f))
                  (snd (generate services (prompt ui f) (world s))) in
      match fst (generate services (prompt ui f) (world s)) with
      | FetchRejected e => (Throw e, s')
      | FetchResolved response =>
          if ok response
          then match body response with
               | JsonRejected e => (Throw e, s')
               | JsonData None => (Throw emptyReplyError, s')
               | JsonData (Some text) =>
                   if Js.truthy text then (Normal (candidateTitles text), s')
                   else (Throw emptyReplyError, s')
               end
          else (Throw "Failed to get suggestions from the AI service.", s')
      end.
Proof.
  unfold getAiSuggestions, getAiSuggestions_body, fetch. unfold_stmt.
  destruct (missing GEMINI_API_KEY); [reflexivity|].
  destruct (generate services (prompt ui f) (world s)) as [[e|response] w']; simpl;
    [reflexivity|].
  destruct (ok response); simpl; [|reflexivity].
  destruct (body response) as [e|[text|]]; simpl; [reflexivity | | reflexivity].
  destruct (Js.truthy text); reflexivity.
Qed.

Lemma searchMoviesWithOMDb_no_key {R} titles ui f (s : State W) :
  missing OMDB_API_KEY = true →
  searchMoviesWithOMDb services OMDB_API_KEY (R:=R) titles ui f s = (Throw searchError, s).
Proof.
  intros Hkey.
  pose proof (searchMoviesWithOMDb_try_no_key services OMDB_API_KEY titles ui f
                (noLocals, s) Hkey) as Htry.
  eapply (searchMoviesWithOMDb_call services OMDB_API_KEY (R:=R)) in Htry as [-> _];
    [reflexivity | eauto].
Qed.

Lemma searchMoviesWithOMDb_cases {R} titles ui f (s : State W) :
  missing OMDB_API_KEY = false →
  let l1 := fst (titleLoop services titles s) in
  let s1 := snd (titleLoop services titles s) in
  let reply := fst (search services ui (world s1)) in
  let w2 := snd (search services ui (world s1)) in
  let s2 := afterFetch s1 (KeywordSearch ui) w2 in
  match results l1 with
  | _ :: _ =>
      searchMoviesWithOMDb services OMDB_API_KEY (R:=R) titles ui f s
      = (Normal (returned f l1), s1)
  | [] =>
      match searchFailure reply with
      | Some _ =>
          searchMoviesWithOMDb services OMDB_API_KEY (R:=R) titles ui f s
          = (Throw searchError, s2)
      | None =>
          match hitsOf reply with
          | None =>
              searchMoviesWithOMDb services OMDB_API_KEY (R:=R) titles ui f s
              = (Normal (returned f l1), s2)
          | Some hits =>
              ∃ reqs recs seen' s',
                FallbackRun services hits (seenMovies l1) w2 reqs recs seen' (world s') ∧
                sent s' = sent s2 ++ reqs ∧
                searchMoviesWithOMDb services OMDB_API_KEY (R:=R) titles ui f s
                = (Normal (returned f (mkLocals seen' recs [])), s')
          end
      end
  end.
Proof.
  intros Hkey l1 s1 reply w2 s2.
  pose proof (searchMoviesWithOMDb_try_unfold services OMDB_API_KEY titles ui f s Hkey)
    as Htry. cbn zeta in Htry.
  destruct (titleLoop_facts services titles s) as (_ & _ & Hvalid). fold l1 in Hvalid.
  replace (titleLoop services titles s) with (l1, s1) in Htry
    by (unfold l1, s1; destruct (titleLoop services titles s); reflexivity).
  cbn [fst snd] in Htry.
  destruct (results l1) as [|m ms] eqn:Hres.
  2: { eapply (searchMoviesWithOMDb_call services OMDB_API_KEY (R:=R)) in Htry as [-> _];
         [reflexivity | eauto]. }
  rewrite fallbackSearch_run in Htry. cbn zeta in Htry. fold reply w2 s2 in Htry.
  destruct (searchFailure reply) as [e|].
  { eapply (searchMoviesWithOMDb_call services OMDB_API_KEY (R:=R)) in Htry as [-> _];
      [reflexivity | eauto]. }
  destruct (hitsOf reply) as [hits|].
  2: { eapply (searchMoviesWithOMDb_call services OMDB_API_KEY (R:=R)) in Htry as [-> _];
         [reflexivity | eauto]. }
  destruct (for_of_detailStep services hits l1 s2)
    as (reqs & recs & seen' & s' & Hloop & Hrun & Hsent & _).
  rewrite Hloop, Hres, Hvalid in Htry. simpl in Htry.
  eapply (searchMoviesWithOMDb_call services OMDB_API_KEY (R:=R)) in Htry as [-> _];
    [| eauto].
  exists reqs, recs, seen', s'. auto.
Qed.

Lemma call_completion {L S R R'} (init : L) (body : Stmt (L * S) R Empty_set) (s : S) :
  (∃ r, fst (call (R':=R') init body s) = Normal r) ∨
  (∃ e, fst (call (R':=R') init body s) = Throw e).
Proof.
  unfold call. destruct (body (init, s)) as [[[]|r|e|] [l s']]; simpl; eauto.
Qed.

Lemma resolvable_found (reply : Fetched Movie) record :
  resolvable reply = Some record → Response record = "True".
Proof.
  unfold resolvable. destruct (resolved reply) as [data|]; [|discriminate].
  destruct (String.eqb_spec (Response data) "True"); [|discriminate].
  intros [= <-]. assumption.
Qed.

Lemma FallbackRun_lookups hits seen w reqs recs seen' (w' : W) :
  FallbackRun services hits seen w reqs recs seen' w' →
  ∃ ids, reqs = DetailLookup <$> ids ∧ sublist ids (imdbID <$> hits).
Proof.
  induction 1 as [seen w | hit hits seen w reqs recs seen' w' _ _ (ids & -> & Hsub)
    | hit hits seen w reply w1 record reqs recs seen' w' _ _ _ _ (ids & -> & Hsub)
    | hit hits seen w reply w1 reqs recs seen' w' _ _ _ _ (ids & -> & Hsub)].
  - exists []. split; [reflexivity | constructor].
  - exists ids. split; [reflexivity | apply sublist_cons, Hsub].
  - exists (imdbID hit :: ids). split; [reflexivity | apply sublist_skip, Hsub].
  - exists (imdbID hit :: ids). split; [reflexivity | apply sublist_skip, Hsub].
Qed.

Lemma FallbackRun_records hits seen w reqs recs seen' (w' : W) :
  FallbackRun services hits seen w reqs recs seen' w' →
  Forall (λ m, Response m = "True") recs ∧ (length recs ≤ length hits)%nat.
Proof.
  induction 1 as [seen w | hit hits seen w reqs recs seen' w' _ _ [IH1 IH2]
    | hit hits seen w reply w1 record reqs recs seen' w' _ _ Hres _ [IH1 IH2]
    | hit hits seen w reply w1 reqs recs seen' w' _ _ _ _ [IH1 IH2]]; simpl.
  - split; [constructor | lia].
  - split; [exact IH1 | lia].
  - split; [constructor; [eapply resolvable_found, Hres | exact IH1] | lia].
  - split; [exact IH1 | lia].
Qed.

Lemma titleNext_records (ls : Locals * State W) title :
  Forall (λ m, Response m = "True") (results (fst ls)) →
  Forall (λ m, Response m = "True") (results (fst (titleNext services ls title))) ∧
  (length (results (fst (titleNext services ls title)))
   ≤ S (length (results (fst ls))))%nat.
Proof.
  destruct ls as [l s]. unfold titleNext. simpl. intros Hl.
  destruct (lookupTitle services title (world s)) as [reply w']. simpl.
  destruct (resolved reply) as [data|]; [|split; [exact Hl | lia]].
  destruct (String.eqb_spec (Response data) "True") as [Hfound|_]; simpl;
    [|split; [exact Hl | lia]].
  destruct (negb (has (seenMovies l) (imdbID data))); [|split; [exact Hl | lia]].
  unfold kept. simpl. split.
  - apply Forall_app. split; [exact Hl | repeat constructor; exact Hfound].
  - rewrite length_app. simpl. lia.
Qed.

Lemma titleLoop_records titles (s : State W) :
  Forall (λ m, Response m = "True") (results (fst (titleLoop services titles s))) ∧
  (length (results (fst (titleLoop services titles s))) ≤ length titles)%nat.
Proof.
  unfold titleLoop.
  assert (Hgen : ∀ ls, Forall (λ m, Response m = "True") (results (fst ls)) →
            Forall (λ m, Response m = "True")
                   (results (fst (fold_left (titleNext services) titles ls))) ∧
            (length (results (fst (fold_left (titleNext services) titles ls)))
             ≤ length (results (fst ls)) + length titles)%nat).
  { induction titles as [|t titles IH]; intros ls Hls; simpl.
    - split; [exact Hls | lia].
    - destruct (titleNext_records ls t Hls) as [Hfound Hlen].
      destruct (IH _ Hfound) as [Hfound' Hlen']. split; [exact Hfound' | lia]. }
  destruct (Hgen (noLocals, s)) as [Hfound Hlen]; [constructor|].
  split; [exact Hfound | exact Hlen].
Qed.

Lemma returned_sublist f l : sublist (returned f l) (results l).
Proof.
  unfold returned. etrans; [apply filterMoviesByYear_sublist_aux | apply List_filter_sublist].
Qed.

(** *** Requests *)

Lemma searchMoviesWithOMDb_sent {R} titles ui f (s : State W) :
  missing OMDB_API_KEY = false →
  let s' := snd (searchMoviesWithOMDb services OMDB_API_KEY (R:=R) titles ui f s) in
  let s1 := snd (titleLoop services titles s) in
  let reply := fst (search services ui (world s1)) in
  ∃ ids,
    sublist ids (imdbID <$> default [] (hitsOf reply)) ∧
    (sent s' = sent s ++ (TitleLookup <$> titles) ∨
     sent s' = sent s ++ (TitleLookup <$> titles)
                 ++ KeywordSearch ui :: (DetailLookup <$> ids)).
Proof.
  intros Hkey s' s1 reply.
  pose proof (searchMoviesWithOMDb_cases (R:=R) titles ui f s Hkey) as Hcases.
  cbn zeta in Hcases. fold s1 reply in Hcases.
  destruct (titleLoop_facts services titles s) as (_ & Hsent & _). fold s1 in Hsent.
  destruct (results (fst (titleLoop services titles s))) as [|m ms].
  2: { exists []. split; [apply sublist_nil_l|]. left. unfold s'. rewrite Hcases. exact Hsent. }
  destruct (searchFailure reply) as [e|].
  { exists []. split; [apply sublist_nil_l|]. right. unfold s'. rewrite Hcases. simpl.
    rewrite Hsent, <- app_assoc. reflexivity. }
  destruct (hitsOf reply) as [hits|].
  2: { exists []. split; [apply sublist_nil_l|]. right. unfold s'. rewrite Hcases. simpl.
       rewrite Hsent, <- app_assoc. reflexivity. }
  destruct Hcases as (reqs & recs & seen' & s'' & Hrun & Hsent' & Hcall).
  destruct (FallbackRun_lookups _ _ _ _ _ _ _ Hrun) as (ids & -> & Hsub).
  exists ids. split; [exact Hsub|]. right. unfold s'. rewrite Hcall. simpl.
  rewrite Hsent'. simpl. rewrite Hsent, <- !app_assoc. reflexivity.
Qed.

Lemma Forall_isMetadataLookup titles ui ids :
  Forall (λ r, isMetadataLookup r = true)
         ((TitleLookup <$> titles) ++ KeywordSearch ui :: (DetailLookup <$> ids)) ∧
  Forall (λ r, isMetadataLookup r = true) (TitleLookup <$> titles).
Proof.
  assert (Ht : Forall (λ r, isMetadataLookup r = true) (TitleLookup <$> titles))
    by (induction titles; constructor; auto).
  split; [|exact Ht]. apply Forall_app. split; [exact Ht|].
  constructor; [reflexivity|]. induction ids; constructor; auto.
Qed.

(** X10.  [searchMoviesWithOMDb] sends nothing when its credential is missing.
    Otherwise it sends one title lookup per title, in order, and then
    either nothing or one keyword search followed by detail lookups; the
    ids looked up are ids of hits of that search, in the order of the hits
    and at most one per hit.  It never sends the generation request nor
    the keyword search without a type. *)
Theorem searchMoviesWithOMDb_requests {R} titles ui f (s : State W) :
  let s' := snd (searchMoviesWithOMDb services OMDB_API_KEY (R:=R) titles ui f s) in
  let s1 := snd (titleLoop services titles s) in
  let reply := fst (search services ui (world s1)) in
  ((missing OMDB_API_KEY = true ∧ s' = s) ∨
   (missing OMDB_API_KEY = false ∧
    ∃ ids,
      sublist ids (imdbID <$> default [] (hitsOf reply)) ∧
      (sentSince (length (sent s)) s' = (TitleLookup <$> titles) ∨
       sentSince (length (sent s)) s'
       = (TitleLookup <$> titles) ++ KeywordSearch ui :: (DetailLookup <$> ids)))) ∧
  Forall (λ r, isMetadataLookup r = true) (sentSince (length (sent s)) s').
Proof.
  intros s' s1 reply. destruct (missing OMDB_API_KEY) eqn:Hkey.
  - assert (Hs : s' = s) by (unfold s'; rewrite searchMoviesWithOMDb_no_key; auto).
    split; [left; auto|]. rewrite Hs. unfold sentSince. rewrite drop_all. constructor.
  - destruct (searchMoviesWithOMDb_sent (R:=R) titles ui f s Hkey) as (ids & Hsub & Hsent).
    fold s' in Hsent.
    assert (Hshape : sentSince (length (sent s)) s' = (TitleLookup <$> titles) ∨
                     sentSince (length (sent s)) s'
                     = (TitleLookup <$> titles) ++ KeywordSearch ui :: (DetailLookup <$> ids)).
    { unfold sentSince. destruct Hsent as [-> | ->]; rewrite drop_app_length; auto. }
    split; [right; split; [reflexivity | eauto]|].
    destruct Hshape as [-> | ->]; apply (Forall_isMetadataLookup titles ui ids).
Qed.

(** *** Failures of [searchMoviesWithOMDb] *)

(** X11.  [searchMoviesWithOMDb] throws one error only, the generic one, and it
    throws it in two situations only: its credential is missing, or the
    title loop kept nothing and the keyword search itself failed.  A
    lookup that fails for a title or for a hit never makes it throw. *)
Theorem searchMoviesWithOMDb_throws_iff {R} titles ui f (s : State W) :
  let c := fst (searchMoviesWithOMDb services OMDB_API_KEY (R:=R) titles ui f s) in
  let l1 := fst (titleLoop services titles s) in
  let s1 := snd (titleLoop services titles s) in
  let reply := fst (search services ui (world s1)) in
  (∀ e, c = Throw e → e = searchError) ∧
  (c = Throw searchError ↔
   missing OMDB_API_KEY = true ∨ (results l1 = [] ∧ searchFailure reply ≠ None)).
Proof.
  intros c l1 s1 reply. destruct (missing OMDB_API_KEY) eqn:Hkey.
  { unfold c. rewrite searchMoviesWithOMDb_no_key by exact Hkey. simpl.
    split; [intros e [= <-]; reflexivity | tauto]. }
  pose proof (searchMoviesWithOMDb_cases (R:=R) titles ui f s Hkey) as Hcases.
  cbn zeta in Hcases. fold l1 s1 reply in Hcases.
  destruct (results l1) as [|m ms].
  2: { unfold c. rewrite Hcases. simpl. split; [discriminate|].
       split; [discriminate | intros [? | [? _]]; discriminate]. }
  destruct (searchFailure reply) as [e|].
  { unfold c. rewrite Hcases. simpl. split; [intros ? [= <-]; reflexivity|].
    split; [intros _; right; split; [reflexivity | discriminate] | reflexivity]. }
  assert (Hnormal : ∃ ms, c = Normal ms).
  { unfold c. destruct (hitsOf reply) as [hits|].
    - destruct Hcases as (reqs & recs & seen' & s' & _ & _ & ->). eauto.
    - rewrite Hcases. eauto. }
  destruct Hnormal as [ms ->]. split; [discriminate|].
  split; [discriminate | intros [? | [_ Hf]]; [discriminate | contradiction]].
Qed.

(** *** What [searchMoviesWithOMDb] returns *)

Lemma searchMoviesWithOMDb_returns {R} titles ui f (s s' : State W) ms :
  searchMoviesWithOMDb services OMDB_API_KEY (R:=R) titles ui f s = (Normal ms, s') →
  let s1 := snd (titleLoop services titles s) in
  let reply := fst (search services ui (world s1)) in
  ∃ l', ms = returned f l' ∧
        Forall (λ m, Response m = "True") (results l') ∧
        (length (results l')
         ≤ length titles + length (default [] (hitsOf reply)))%nat.
Proof.
  intros Hcall s1 reply. destruct (missing OMDB_API_KEY) eqn:Hkey.
  { rewrite searchMoviesWithOMDb_no_key in Hcall by exact Hkey. discriminate. }
  pose proof (searchMoviesWithOMDb_cases (R:=R) titles ui f s Hkey) as Hcases.
  cbn zeta in Hcases. fold s1 reply in Hcases.
  destruct (titleLoop_records titles s) as [Hfound Hlen].
  destruct (results (fst (titleLoop services titles s))) as [|m0 ms0] eqn:Hres.
  2: { rewrite Hcases in Hcall. injection Hcall as <- <-.
       exists (fst (titleLoop services titles s)). rewrite Hres.
       split; [reflexivity | split; [exact Hfound | lia]]. }
  destruct (searchFailure reply) as [e|].
  { rewrite Hcases in Hcall. discriminate. }
  destruct (hitsOf reply) as [hits|].
  2: { rewrite Hcases in Hcall. injection Hcall as <- <-.
       exists (fst (titleLoop services titles s)). rewrite Hres.
       split; [reflexivity | split; [constructor | simpl; lia]]. }
  destruct Hcases as (reqs & recs & seen' & s'' & Hrun & _ & Hcall').
  rewrite Hcall' in Hcall. injection Hcall as <- <-.
  destruct (FallbackRun_records _ _ _ _ _ _ _ Hrun) as [Hfound' Hlen'].
  exists (mkLocals seen' recs []). simpl.
  split; [reflexivity | split; [exact Hfound' | lia]].
Qed.

(** X12.  Every record that [searchMoviesWithOMDb] returns was found by the
    metadata service (its [Response] is "True"), and there are at most as
    many of them as there are titles and hits of the keyword search. *)
Theorem returned_records_found {R} titles ui f (s s' : State W) ms :
  searchMoviesWithOMDb services OMDB_API_KEY (R:=R) titles ui f s = (Normal ms, s') →
  let s1 := snd (titleLoop services titles s) in
  let reply := fst (search services ui (world s1)) in
  Forall (λ m, Response m = "True") ms ∧
  (length ms ≤ length titles + length (default [] (hitsOf reply)))%nat.
Proof.
  intros Hcall s1 reply.
  destruct (searchMoviesWithOMDb_returns (R:=R) titles ui f s s' ms Hcall)
    as (l' & -> & Hfound & Hlen). fold s1 reply in Hlen.
  pose proof (returned_sublist f l') as Hsub. split.
  - rewrite Forall_forall in Hfound |- *. intros m Hm. apply Hfound.
    eapply elem_of_sublist; eassumption.
  - apply sublist_length in Hsub. lia.
Qed.

Lemma yearSwitch_bucketHolds yearFilter b (y : Z) :
  (yearFilter, b) ∈ recognizedBuckets → b ≠ BucketAll →
  String.eqb yearFilter "all" = false ∧ yearSwitch yearFilter y = bucketHolds b y.
Proof.
  unfold recognizedBuckets. intros Hin Hb.
  repeat (apply elem_of_cons in Hin as [Hin | Hin];
          [ injection Hin as -> ->; try contradiction; split; reflexivity | ]).
  inversion Hin.
Qed.

(** X13.  Every record that [searchMoviesWithOMDb] returns under a year bucket
    other than "all" has a year that parses to an integer of that bucket:
    before 1980 for "classic", within the ten years for a decade, the year
    itself for an exact bucket. *)
Theorem returned_records_in_bucket {R} titles ui f (s s' : State W) ms b :
  searchMoviesWithOMDb services OMDB_API_KEY (R:=R) titles ui f s = (Normal ms, s') →
  (year f, b) ∈ recognizedBuckets → b ≠ BucketAll →
  Forall (λ m, ∃ y, Js.parseInt (Year m) = Some y ∧ bucketHolds b y = true) ms.
Proof.
  intros Hcall Hin Hb.
  destruct (searchMoviesWithOMDb_returns (R:=R) titles ui f s s' ms Hcall)
    as (l' & -> & _ & _).
  apply Forall_forall. intros m Hm. unfold returned, filterMoviesByYear in Hm.
  destruct (yearSwitch_bucketHolds (year f) b 0 Hin Hb) as [Hall _].
  rewrite Hall in Hm. apply list_elem_of_In, List.filter_In in Hm as [_ Hm].
  unfold yearKeeps in Hm. destruct (Js.parseInt (Year m)) as [y|]; [|discriminate].
  exists y. split; [reflexivity|].
  destruct (yearSwitch_bucketHolds (year f) b y Hin Hb) as [_ <-]. exact Hm.
Qed.

(** *** The handler, case by case *)

Lemma messageOf_nonempty err : messageOf err ≠ "".
Proof. unfold messageOf. destruct err; simpl; discriminate. Qed.

Lemma handleMovieSuggestion_blank (s : State W) :
  Js.truthy (Js.trim (userInput s)) = false →
  sent (handleMovieSuggestion services GEMINI_API_KEY OMDB_API_KEY s) = sent s.
Proof.
  intros Hblank. unfold handleMovieSuggestion, handleMovieSuggestion_body. unfold_stmt.
  rewrite Hblank. reflexivity.
Qed.

Lemma handleMovieSuggestion_search_throws (s s1 s2 : State W) titles e :
  Js.truthy (Js.trim (userInput s)) = true →
  getAiSuggestions services GEMINI_API_KEY (R:=unit) (userInput s) (filters s) (cleared s)
    = (Normal titles, s1) →
  searchMoviesWithOMDb services OMDB_API_KEY (R:=unit) titles (userInput s) (filters s) s1
    = (Throw e, s2) →
  handleMovieSuggestion services GEMINI_API_KEY OMDB_API_KEY s = failed s2 e.
Proof.
  intros Hinput Hget Hsearch. apply handleMovieSuggestion_failed; [exact Hinput|].
  unfold suggestionProcess_try, bind. rewrite Hget, Hsearch. reflexivity.
Qed.

Lemma handleMovieSuggestion_returns (s s1 s2 : State W) titles ms :
  Js.truthy (Js.trim (userInput s)) = true →
  getAiSuggestions services GEMINI_API_KEY (R:=unit) (userInput s) (filters s) (cleared s)
    = (Normal titles, s1) →
  searchMoviesWithOMDb services OMDB_API_KEY (R:=unit) titles (userInput s) (filters s) s1
    = (Normal ms, s2) →
  handleMovieSuggestion services GEMINI_API_KEY OMDB_API_KEY s
  = match ms with
    | _ :: _ => mkState (userInput s) (filters s) ms false None (world s2) (sent s2)
    | [] => mkState (userInput s) (filters s) [] false (Some noMatchError)
                    (world s2) (sent s2)
    end.
Proof.
  intros Hinput Hget Hsearch.
  pose proof (Keeps_getAiSuggestions services GEMINI_API_KEY (R:=unit)
                (userInput s) (filters s) (cleared s)) as Hview1.
  rewrite Hget in Hview1. simpl in Hview1.
  pose proof (Keeps_searchMoviesWithOMDb services OMDB_API_KEY (R:=unit)
                titles (userInput s) (filters s) s1) as Hview2.
  rewrite Hsearch in Hview2. simpl in Hview2.
  destruct Hview1 as (U1 & F1 & M1 & _ & E1). destruct Hview2 as (U2 & F2 & M2 & _ & E2).
  simpl in U1, F1, M1, E1.
  rewrite handleMovieSuggestion_enters by exact Hinput.
  unfold suggestionProcess, suggestionProcess_try. unfold_stmt.
  rewrite Hget, Hsearch. destruct ms as [|m ms]; simpl.
  - rewrite U2, U1, F2, F1, M2, M1. reflexivity.
  - rewrite U2, U1, F2, F1, E2, E1. reflexivity.
Qed.

Lemma searchMoviesWithOMDb_sends_metadata {R} titles ui f (s : State W) :
  ∃ meta,
    sent (snd (searchMoviesWithOMDb services OMDB_API_KEY (R:=R) titles ui f s))
    = sent s ++ meta ∧
    Forall (λ r, isMetadataLookup r = true) meta ∧
    (missing OMDB_API_KEY = true → meta = []).
Proof.
  destruct (missing OMDB_API_KEY) eqn:Hkey.
  - exists []. rewrite searchMoviesWithOMDb_no_key by exact Hkey. simpl.
    rewrite app_nil_r. auto.
  - destruct (searchMoviesWithOMDb_sent (R:=R) titles ui f s Hkey) as (ids & _ & [-> | ->]);
      eexists; (split; [reflexivity|]); (split; [|discriminate]);
      apply (Forall_isMetadataLookup titles ui ids).
Qed.

(** *** Missing credentials *)

(** X14.  Without the credential of the generation service, a submission with a
    non-blank input sends no request at all and ends with the message that
    names the missing key, no results, and the loading flag off. *)
Theorem missing_gemini_key_stops (s : State W) :
  missing GEMINI_API_KEY = true →
  Js.truthy (Js.trim (userInput s)) = true →
  handleMovieSuggestion services GEMINI_API_KEY OMDB_API_KEY s
  = mkState (userInput s) (filters s) [] false (Some geminiKeyError) (world s) (sent s).
Proof.
  intros Hkey Hinput. erewrite handleMovieSuggestion_failed; [| exact Hinput |].
  2: { unfold suggestionProcess_try, bind.
       rewrite getAiSuggestions_cases, Hkey. reflexivity. }
  reflexivity.
Qed.

(** X15.  Without the credential of the metadata service, [searchMoviesWithOMDb]
    sends nothing and throws the generic search error, for whatever
    titles: the message that names the missing key is replaced in the
    [catch] block and is never shown.  A submission for which titles were
    obtained ends with the generic message and no results. *)
Theorem missing_omdb_key_masked (s s1 : State W) titles :
  missing OMDB_API_KEY = true →
  Js.truthy (Js.trim (userInput s)) = true →
  getAiSuggestions services GEMINI_API_KEY (R:=unit) (userInput s) (filters s) (cleared s)
    = (Normal titles, s1) →
  searchMoviesWithOMDb services OMDB_API_KEY (R:=unit) titles (userInput s) (filters s) s1
    = (Throw searchError, s1) ∧
  handleMovieSuggestion services GEMINI_API_KEY OMDB_API_KEY s
  = mkState (userInput s) (filters s) [] false (Some searchError) (world s1) (sent s1).
Proof.
  intros Hkey Hinput Hget.
  pose proof (searchMoviesWithOMDb_no_key (R:=unit) titles (userInput s) (filters s) s1 Hkey)
    as Hsearch.
  split; [exact Hsearch|].
  rewrite (handleMovieSuggestion_search_throws s s1 s1 titles _ Hinput Hget Hsearch).
  pose proof (Keeps_getAiSuggestions services GEMINI_API_KEY (R:=unit)
                (userInput s) (filters s) (cleared s)) as Hview.
  rewrite Hget in Hview. destruct Hview as (U1 & F1 & M1 & _ & _). simpl in U1, F1, M1.
  unfold failed. rewrite U1, F1, M1. reflexivity.
Qed.


(** *** The outcome of a submission *)

(** X17.  A submission with a non-blank input leaves the input and the filters
    as they were and the loading flag off, and it ends in one of two ways:
    with results and no error, or with no results and an error whose
    message is not empty.  Results and an error are never shown
    together. *)
Theorem submission_outcome (s : State W) :
  Js.truthy (Js.trim (userInput s)) = true →
  let s' := handleMovieSuggestion services GEMINI_API_KEY OMDB_API_KEY s in
  userInput s' = userInput s ∧ filters s' = filters s ∧ isLoading s' = false ∧
  ((movies s' ≠ [] ∧ error s' = None) ∨
   (movies s' = [] ∧ ∃ message, error s' = Some message ∧ message ≠ "")).
Proof.
  intros Hinput s'.
  destruct (getAiSuggestions services GEMINI_API_KEY (R:=unit)
              (userInput s) (filters s) (cleared s)) as [c1 s1] eqn:Hget.
  pose proof (Keeps_getAiSuggestions services GEMINI_API_KEY (R:=unit)
                (userInput s) (filters s) (cleared s)) as Hview1.
  rewrite Hget in Hview1. destruct Hview1 as (U1 & F1 & M1 & _ & _). simpl in U1, F1, M1.
  destruct (call_completion (R':=unit) tt
              (getAiSuggestions_body services GEMINI_API_KEY (userInput s) (filters s))
              (cleared s)) as [[titles Hc] | [e Hc]];
    unfold getAiSuggestions in Hget; rewrite Hget in Hc; simpl in Hc; subst c1;
    fold (getAiSuggestions services GEMINI_API_KEY (R:=unit) (userInput s) (filters s)
            (cleared s)) in Hget.
  - destruct (searchMoviesWithOMDb services OMDB_API_KEY (R:=unit) titles
                (userInput s) (filters s) s1) as [c2 s2] eqn:Hsearch.
    pose proof (Keeps_searchMoviesWithOMDb services OMDB_API_KEY (R:=unit) titles
                  (userInput s) (filters s) s1) as Hview2.
    rewrite Hsearch in Hview2. destruct Hview2 as (U2 & F2 & M2 & _ & _). simpl in U2, F2, M2.
    destruct (call_completion (R':=unit) noLocals
                (bind (searchMoviesWithOMDb_try services OMDB_API_KEY titles
                         (userInput s) (filters s))
                      (λ _, searchMoviesWithOMDb_rest services (userInput s) (filters s)))
                s1) as [[ms Hc] | [e Hc]];
      unfold searchMoviesWithOMDb in Hsearch; rewrite Hsearch in Hc; simpl in Hc; subst c2;
      fold (searchMoviesWithOMDb services OMDB_API_KEY (R:=unit) titles
              (userInput s) (filters s) s1) in Hsearch.
    + unfold s'. rewrite (handleMovieSuggestion_returns s s1 s2 titles ms Hinput Hget Hsearch).
      destruct ms as [|m ms]; simpl; repeat split; auto.
      right. split; [reflexivity|]. eexists. split; [reflexivity | discriminate].
    + unfold s'.
      rewrite (handleMovieSuggestion_search_throws s s1 s2 titles e Hinput Hget Hsearch).
      simpl. rewrite U2, U1, F2, F1, M2, M1. repeat split.
      right. split; [reflexivity|]. eexists. split; [reflexivity | apply messageOf_nonempty].
  - unfold s'. erewrite handleMovieSuggestion_failed; [| exact Hinput |].
    2: { unfold suggestionProcess_try, bind. rewrite Hget. reflexivity. }
    simpl. rewrite U1, F1, M1. repeat split.
    right. split; [reflexivity|]. eexists. split; [reflexivity | apply messageOf_nonempty].
Qed.

(** X18.  When the titles are obtained and [searchMoviesWithOMDb] returns, the
    list it returns is what is shown, with no error, if it is not empty;
    if it is empty, nothing is shown but the message that no movie was
    found, which is not the message of a failure. *)
Theorem submission_shows_returned (s s1 s2 : State W) titles ms :
  Js.truthy (Js.trim (userInput s)) = true →
  getAiSuggestions services GEMINI_API_KEY (R:=unit) (userInput s) (filters s) (cleared s)
    = (Normal titles, s1) →
  searchMoviesWithOMDb services OMDB_API_KEY (R:=unit) titles (userInput s) (filters s) s1
    = (Normal ms, s2) →
  movies (handleMovieSuggestion services GEMINI_API_KEY OMDB_API_KEY s) = ms ∧
  error (handleMovieSuggestion services GEMINI_API_KEY OMDB_API_KEY s)
  = (if decide (ms = []) then Some noMatchError else None) ∧
  world (handleMovieSuggestion services GEMINI_API_KEY OMDB_API_KEY s) = world s2 ∧
  sent (handleMovieSuggestion services GEMINI_API_KEY OMDB_API_KEY s) = sent s2.
Proof.
  intros Hinput Hget Hsearch.
  rewrite (handleMovieSuggestion_returns s s1 s2 titles ms Hinput Hget Hsearch).
  destruct ms; simpl; auto.
Qed.

(** X19.  A submission asks the generation service at most once, and before
    anything else: the requests it adds to the log are none, or the
    generation request followed by lookups of the metadata service only. *)
Theorem submission_requests (s : State W) :
  ∃ meta,
    Forall (λ r, isMetadataLookup r = true) meta ∧
    (sent (handleMovieSuggestion services GEMINI_API_KEY OMDB_API_KEY s) = sent s ∨
     sent (handleMovieSuggestion services GEMINI_API_KEY OMDB_API_KEY s)
     = sent s ++ GenerateContent (prompt (userInput s) (filters s)) :: meta).
Proof.
  destruct (Js.truthy (Js.trim (userInput s))) eqn:Hinput.
  2: { exists []. split; [constructor|]. left. apply handleMovieSuggestion_blank, Hinput. }
  destruct (getAiSuggestions services GEMINI_API_KEY (R:=unit)
              (userInput s) (filters s) (cleared s)) as [c1 s1] eqn:Hget.
  assert (Hsent : sent s1 = sent s ∧ (∃ e, c1 = Throw e) ∨
                  sent s1 = sent s ++ [GenerateContent (prompt (userInput s) (filters s))]).
  { rewrite getAiSuggestions_cases in Hget.
    destruct (missing GEMINI_API_KEY); [injection Hget as <- <-; left; eauto|].
    cbn zeta in Hget. right.
    destruct (fst (generate services _ _)) as [e|response];
      [injection Hget as _ <-; reflexivity|].
    destruct (ok response); [|injection Hget as _ <-; reflexivity].
    destruct (body response) as [e|[text|]]; try (injection Hget as _ <-; reflexivity).
    destruct (Js.truthy text); injection Hget as _ <-; reflexivity. }
  destruct (call_completion (R':=unit) tt
              (getAiSuggestions_body services GEMINI_API_KEY (userInput s) (filters s))
              (cleared s)) as [[titles Hc] | [e Hc]];
    unfold getAiSuggestions in Hget; rewrite Hget in Hc; simpl in Hc; subst c1;
    fold (getAiSuggestions services GEMINI_API_KEY (R:=unit) (userInput s) (filters s)
            (cleared s)) in Hget.
  - destruct Hsent as [[_ [e He]] | Hsent]; [discriminate He|].
    destruct (searchMoviesWithOMDb_sends_metadata (R:=unit) titles
                (userInput s) (filters s) s1) as (meta & Hmeta & Hall & _).
    exists meta. split; [exact Hall|]. right.
    destruct (searchMoviesWithOMDb services OMDB_API_KEY (R:=unit) titles
                (userInput s) (filters s) s1) as [c2 s2] eqn:Hsearch.
    simpl in Hmeta.
    assert (Hfinal : sent (handleMovieSuggestion services GEMINI_API_KEY OMDB_API_KEY s)
                     = sent s2).
    { destruct (call_completion (R':=unit) noLocals
                  (bind (searchMoviesWithOMDb_try services OMDB_API_KEY titles
                           (userInput s) (filters s))
                        (λ _, searchMoviesWithOMDb_rest services (userInput s) (filters s)))
                  s1) as [[ms Hc] | [e Hc]];
        unfold searchMoviesWithOMDb in Hsearch; rewrite Hsearch in Hc; simpl in Hc; subst c2;
        fold (searchMoviesWithOMDb services OMDB_API_KEY (R:=unit) titles
                (userInput s) (filters s) s1) in Hsearch.
      - rewrite (handleMovieSuggestion_returns s s1 s2 titles ms Hinput Hget Hsearch).
        destruct ms; reflexivity.
      - rewrite (handleMovieSuggestion_search_throws s s1 s2 titles e Hinput Hget Hsearch).
        reflexivity. }
    rewrite Hfinal, Hmeta, Hsent, <- app_assoc. reflexivity.
  - exists []. split; [constructor|].
    erewrite handleMovieSuggestion_failed; [| exact Hinput |].
    2: { unfold suggestionProcess_try, bind. rewrite Hget. reflexivity. }
    simpl. destruct Hsent as [[-> _] | ->]; auto.
Qed.

End ComponentMore.

(** ** [getAiSuggestions], continued *)

Section GenerationMore.

Context {W : Type}.
Variable services : Services W.
Variables GEMINI_API_KEY OMDB_API_KEY : option string.

(** X20.  When [getAiSuggestions] returns, it has sent the generation request
    and nothing else, and the titles it returns are those of a non-empty
    text, each of them well formed. *)
Theorem getAiSuggestions_returns {R} ui f (s s' : State W) titles :
  getAiSuggestions services GEMINI_API_KEY (R:=R) ui f s = (Normal titles, s') →
  sent s' = sent s ++ [GenerateContent (prompt ui f)] ∧
  (∃ text, text ≠ "" ∧ titles = candidateTitles text) ∧
  Forall wellFormedTitle titles.
Proof.
  rewrite getAiSuggestions_cases.
  destruct (missing GEMINI_API_KEY); [discriminate|]. cbn zeta.
  destruct (fst (generate services (prompt ui f) (world s))) as [e|response];
    [discriminate|].
  destruct (ok response); [|discriminate].
  destruct (body response) as [e|[text|]]; try discriminate.
  destruct text as [|c text]; [discriminate|]. simpl Js.truthy. cbv iota.
  intros [= <- <-]. split; [reflexivity|]. split.
  - eexists. split; [|reflexivity]. discriminate.
  - apply Forall_forall. intros t Ht. eapply candidateTitles_elem. exact Ht.
Qed.

(** X21.  When the generation request is rejected (the service cannot be
    reached), a submission with a non-blank input ends with the message of
    the rejection, or with the default message if that one is empty; no
    results are shown and nothing is asked of the metadata service. *)
Theorem generation_unreachable (s : State W) e w' :
  Js.truthy (Js.trim (userInput s)) = true →
  missing GEMINI_API_KEY = false →
  generate services (prompt (userInput s) (filters s)) (world s) = (FetchRejected e, w') →
  handleMovieSuggestion services GEMINI_API_KEY OMDB_API_KEY s
  = mkState (userInput s) (filters s) [] false
            (Some (if Js.truthy e then e
                   else "An unknown error occurred. Please try again."))
            w' (sent s ++ [GenerateContent (prompt (userInput s) (filters s))]).
Proof.
  intros Hinput Hkey Hreply.
  erewrite handleMovieSuggestion_failed; [| exact Hinput |].
  2: { unfold suggestionProcess_try, bind. rewrite getAiSuggestions_cases, Hkey.
       cbn zeta. simpl world. rewrite Hreply. reflexivity. }
  reflexivity.
Qed.

End GenerationMore.

(** ** Further runs in the example worlds *)

Lemma year_buckets_disjoint_witness :
  "2010s" ∈ yearBuckets ∧ "classic" ∈ yearBuckets ∧ "2010s" ≠ "classic" ∧
  filterMoviesByYear (filterMoviesByYear records "2010s") "classic" = [].
Proof.
  assert (H1 : "2010s" ∈ yearBuckets) by (unfold yearBuckets; repeat constructor).
  assert (H2 : "classic" ∈ yearBuckets) by (unfold yearBuckets; repeat constructor).
  assert (Hne : "2010s" ≠ "classic") by discriminate.
  split; [exact H1|]. split; [exact H2|]. split; [exact Hne|].
  exact (year_buckets_disjoint records "2010s" "classic" H1 H2 Hne).
Defined.

Lemma year_buckets_cover_witness :
  toyStory3 ∈ records ∧
  ((∃ b, b ∈ yearBuckets ∧ toyStory3 ∈ filterMoviesByYear records b) ↔
   (∃ y, Js.parseInt (Year toyStory3) = Some y ∧ y ≤ 2025)).
Proof.
  assert (Hin : toyStory3 ∈ records) by (unfold records; repeat constructor).
  split; [exact Hin | exact (year_buckets_cover records toyStory3 Hin)].
Defined.

Lemma returned_records_found_witness :
  let s := submitting "reel" anyYear [] 0%nat in
  let s' := snd (searchMoviesWithOMDb catalogue (Some "o") (R:=unit)
                   ["Unknown"] "reel" anyYear s) in
  searchMoviesWithOMDb catalogue (Some "o") (R:=unit) ["Unknown"] "reel" anyYear s
  = (Normal [up; toyStory3; intouchables], s') ∧
  Forall (λ m, Response m = "True") [up; toyStory3; intouchables] ∧
  (length [up; toyStory3; intouchables] ≤ 1 + length records)%nat.
Proof.
  intros s s'.
  assert (Hrun : searchMoviesWithOMDb catalogue (Some "o") (R:=unit)
                   ["Unknown"] "reel" anyYear s
                 = (Normal [up; toyStory3; intouchables], s'))
    by (vm_compute; reflexivity).
  split; [exact Hrun|].
  exact (returned_records_found catalogue (Some "o") _ _ _ s s' _ Hrun).
Defined.

Lemma returned_records_in_bucket_witness :
  let f := mkFilters "english" "comedy" "2010s" in
  let s := submitting "a funny family movie" f [] 0%nat in
  let s' := snd (searchMoviesWithOMDb catalogue (Some "o") (R:=unit)
                   ["Up"; "Toy Story 3"; "The Intouchables"] "a funny family movie" f s) in
  searchMoviesWithOMDb catalogue (Some "o") (R:=unit)
    ["Up"; "Toy Story 3"; "The Intouchables"] "a funny family movie" f s
  = (Normal [toyStory3; intouchables], s') ∧
  (year f, BucketDecade 2010) ∈ recognizedBuckets ∧
  BucketDecade 2010 ≠ BucketAll ∧
  Forall (λ m, ∃ y, Js.parseInt (Year m) = Some y ∧ bucketHolds (BucketDecade 2010) y = true)
         [toyStory3; intouchables].
Proof.
  intros f s s'.
  assert (Hrun : searchMoviesWithOMDb catalogue (Some "o") (R:=unit)
                   ["Up"; "Toy Story 3"; "The Intouchables"] "a funny family movie" f s
                 = (Normal [toyStory3; intouchables], s'))
    by (vm_compute; reflexivity).
  assert (Hin : (year f, BucketDecade 2010) ∈ recognizedBuckets)
    by (unfold recognizedBuckets; repeat constructor).
  assert (Hb : BucketDecade 2010 ≠ BucketAll) by discriminate.
  split; [exact Hrun|]. split; [exact Hin|]. split; [exact Hb|].
  exact (returned_records_in_bucket catalogue (Some "o") _ _ _ s s' _ _ Hrun Hin Hb).
Defined.

Lemma missing_gemini_key_stops_witness :
  let s := submitting "heist" anyYear [up] 0%nat in
  missing None = true ∧ Js.truthy (Js.trim (userInput s)) = true ∧
  handleMovieSuggestion catalogue None (Some "o") s
  = mkState "heist" anyYear [] false (Some geminiKeyError) 0%nat [].
Proof.
  intros s.
  assert (Hkey : missing None = true) by reflexivity.
  assert (Hinput : Js.truthy (Js.trim (userInput s)) = true) by reflexivity.
  split; [exact Hkey|]. split; [exact Hinput|].
  exact (missing_gemini_key_stops catalogue None (Some "o") s Hkey Hinput).
Defined.

Lemma missing_omdb_key_masked_witness :
  let s := submitting "heist" anyYear [up] 0%nat in
  let titles := ["Up"; "Toy Story 3"; "The Intouchables"] in
  let s1 := snd (getAiSuggestions catalogue (Some "g") (R:=unit)
                   (userInput s) (filters s) (cleared s)) in
  missing (Some "") = true ∧ Js.truthy (Js.trim (userInput s)) = true ∧
  searchMoviesWithOMDb catalogue (Some "") (R:=unit) titles (userInput s) (filters s) s1
    = (Throw searchError, s1) ∧
  handleMovieSuggestion catalogue (Some "g") (Some "") s
  = mkState (userInput s) (filters s) [] false (Some searchError) (world s1) (sent s1).
Proof.
  intros s titles s1.
  assert (Hkey : missing (Some "") = true) by reflexivity.
  assert (Hinput : Js.truthy (Js.trim (userInput s)) = true) by reflexivity.
  assert (Hget : getAiSuggestions catalogue (Some "g") (R:=unit)
                   (userInput s) (filters s) (cleared s) = (Normal titles, s1))
    by (vm_compute; reflexivity).
  split; [exact Hkey|]. split; [exact Hinput|].
  exact (missing_omdb_key_masked catalogue (Some "g") (Some "") s s1 titles Hkey Hinput Hget).
Defined.


Lemma submission_outcome_witness :
  let s := submitting "a funny family movie" (mkFilters "english" "comedy" "2010s")
             [lostReel] 0%nat in
  let s' := handleMovieSuggestion catalogue (Some "g") (Some "o") s in
  Js.truthy (Js.trim (userInput s)) = true ∧
  userInput s' = userInput s ∧ filters s' = filters s ∧ isLoading s' = false ∧
  ((movies s' ≠ [] ∧ error s' = None) ∨
   (movies s' = [] ∧ ∃ message, error s' = Some message ∧ message ≠ "")).
Proof.
  intros s s'.
  assert (Hinput : Js.truthy (Js.trim (userInput s)) = true) by reflexivity.
  split; [exact Hinput|].
  exact (submission_outcome catalogue (Some "g") (Some "o") s Hinput).
Defined.

Lemma submission_shows_returned_witness :
  let f := mkFilters "english" "comedy" "2010s" in
  let s := submitting "a funny family movie" f [lostReel] 0%nat in
  let titles := ["Up"; "Toy Story 3"; "The Intouchables"] in
  let s1 := snd (getAiSuggestions catalogue (Some "g") (R:=unit)
                   (userInput s) (filters s) (cleared s)) in
  let s2 := snd (searchMoviesWithOMDb catalogue (Some "o") (R:=unit) titles
                   (userInput s) (filters s) s1) in
  Js.truthy (Js.trim (userInput s)) = true ∧
  movies (handleMovieSuggestion catalogue (Some "g") (Some "o") s)
  = [toyStory3; intouchables] ∧
  error (handleMovieSuggestion catalogue (Some "g") (Some "o") s)
  = (if decide ([toyStory3; intouchables] = []) then Some noMatchError else None) ∧
  world (handleMovieSuggestion catalogue (Some "g") (Some "o") s) = world s2 ∧
  sent (handleMovieSuggestion catalogue (Some "g") (Some "o") s) = sent s2.
Proof.
  intros f s titles s1 s2.
  assert (Hinput : Js.truthy (Js.trim (userInput s)) = true) by reflexivity.
  assert (Hget : getAiSuggestions catalogue (Some "g") (R:=unit)
                   (userInput s) (filters s) (cleared s) = (Normal titles, s1))
    by (vm_compute; reflexivity).
  assert (Hsearch : searchMoviesWithOMDb catalogue (Some "o") (R:=unit) titles
                      (userInput s) (filters s) s1
                    = (Normal [toyStory3; intouchables], s2))
    by (vm_compute; reflexivity).
  split; [exact Hinput|].
  exact (submission_shows_returned catalogue (Some "g") (Some "o") s s1 s2 titles _
           Hinput Hget Hsearch).
Defined.

Lemma getAiSuggestions_returns_witness :
  let s := submitting "heist" anyYear [] 0%nat in
  let s' := snd (getAiSuggestions catalogue (Some "g") (R:=unit) "heist" anyYear s) in
  getAiSuggestions catalogue (Some "g") (R:=unit) "heist" anyYear s
  = (Normal ["Up"; "Toy Story 3"; "The Intouchables"], s') ∧
  sent s' = sent s ++ [GenerateContent (prompt "heist" anyYear)] ∧
  (∃ text, text ≠ "" ∧ ["Up"; "Toy Story 3"; "The Intouchables"] = candidateTitles text) ∧
  Forall wellFormedTitle ["Up"; "Toy Story 3"; "The Intouchables"].
Proof.
  intros s s'.
  assert (Hrun : getAiSuggestions catalogue (Some "g") (R:=unit) "heist" anyYear s
                 = (Normal ["Up"; "Toy Story 3"; "The Intouchables"], s'))
    by (vm_compute; reflexivity).
  split; [exact Hrun|].
  exact (getAiSuggestions_returns catalogue (Some "g") _ _ s s' _ Hrun).
Defined.

Lemma generation_unreachable_witness :
  let s := submitting "heist" anyYear [up] tt in
  Js.truthy (Js.trim (userInput s)) = true ∧ missing (Some "g") = false ∧
  handleMovieSuggestion offline (Some "g") (Some "o") s
  = mkState "heist" anyYear [] false (Some "Failed to fetch") tt
            [GenerateContent (prompt "heist" anyYear)].
Proof.
  intros s.
  assert (Hinput : Js.truthy (Js.trim (userInput s)) = true) by reflexivity.
  assert (Hkey : missing (Some "g") = false) by reflexivity.
  split; [exact Hinput|]. split; [exact Hkey|].
  exact (generation_unreachable offline (Some "g") (Some "o") s "Failed to fetch" tt
           Hinput Hkey eq_refl).
Defined.
